(** * OurVoiceOurRights: the tiered retrieval policy and its derived metrics

    A shallow embedding of [src/utils.py] (the SQLite cache, the remote stub,
    the offline file, the state average) and of the two pieces of
    [src/app.py] that carry decision logic ([get_district_data] and the
    year-over-year block).

    Modelling conventions.
    - The table [district_metrics] is a list of rows in insertion order.  The
      [id] column is never selected by any query of the program and is left
      out.  Columns are taken at their declared types: [INTEGER] as [Z],
      [REAL] as an exact rational [Q] (an idealisation of the double that
      SQLite and Python use), and no column holds NULL.
    - A timestamp string ['%Y-%m-%d %H:%M:%S'] is modelled by the number of
      whole seconds it denotes; on that fixed-width format SQLite's string
      [MAX] is the chronological maximum.  [datetime.now()] has microsecond
      resolution and is modelled by a clock that answers in microseconds.
    - Python exceptions are an explicit [outcome]; the world is threaded
      through every call. *)

From Stdlib Require Import ZArith QArith Qround List String Bool Lia Permutation.
From Stdlib Require Import Lqa Sorting.Sorted Qabs.
Import ListNotations.
Open Scope Z_scope.

(** ** Records *)

(** A record as the Remote Source or [offline_data.json] delivers it: a dict
    with the keys the program reads.  [src_updated_at] stands for any
    timestamp the source may carry; no function of the program reads it. *)
Record SrcRecord := mkSrc {
  src_state : string;
  src_district : string;
  src_year : Z;
  src_month : Z;
  src_households : Z;
  src_person_days : Z;
  src_expenditure : Q;
  src_avg_wage : Q;
  src_updated_at : option Z
}.

(** A row of [district_metrics] (utils.py 26-38), without [id]. *)
Record Row := mkRow {
  state : string;
  district : string;
  year : Z;
  month : Z;
  households : Z;
  person_days : Z;
  expenditure : Q;
  avg_wage : Q;
  updated_at : Z
}.

(** What [get_district_data] hands back as [df]: either the result of the
    SQL query of [get_from_cache], or [pd.DataFrame(records)] built from
    source records. *)
Inductive DataFrame :=
| FromSql (rows : list Row)
| FromRecords (recs : list SrcRecord).

(** [df.empty] *)
Definition empty (df : DataFrame) : bool :=
  match df with
  | FromSql [] => true
  | FromRecords [] => true
  | _ => false
  end.

(** ** Exceptions and the world *)

Inductive exn := Exception (msg : string).

Inductive outcome (A : Type) :=
| Returned (a : A)
| Raised (e : exn).
Arguments Returned {A} a.
Arguments Raised {A} e.

(** [offline_data.json] on disk: absent, unreadable as JSON ([json.load]
    raises), or an array of records. *)
Inductive OfflineFile :=
| Missing
| Corrupt (e : exn)
| Json (data : list SrcRecord).

(** The state every call runs in.
    - [table]: the rows of [district_metrics] in [data_cache.db];
    - [clock], [ticks]: the [n]-th call of [datetime.now()] answers
      [clock n] microseconds; [ticks] counts the calls made so far;
    - [remote], [api_calls]: what the [try] block of [fetch_from_api] does on
      its [n]-th execution, and how many executions there were;
    - [offline_file]: the content of [OFFLINE_DATA_FILE];
    - [stdout]: the lines printed. *)
Record World := mkWorld {
  table : list Row;
  clock : nat -> Z;
  ticks : nat;
  remote : nat -> string -> string -> outcome (option (list SrcRecord));
  api_calls : nat;
  offline_file : OfflineFile;
  stdout : list string
}.

Definition M (A : Type) : Type := World -> outcome A * World.

Definition ret {A} (a : A) : M A := fun w => (Returned a, w).

Definition bind {A B} (m : M A) (k : A -> M B) : M B :=
  fun w => match m w with
           | (Returned a, w') => k a w'
           | (Raised e, w') => (Raised e, w')
           end.

Definition raise {A} (e : exn) : M A := fun w => (Raised e, w).

(** [try: m except Exception as e: h e] *)
Definition try_except {A} (m : M A) (h : exn -> M A) : M A :=
  fun w => match m w with
           | (Returned a, w') => (Returned a, w')
           | (Raised e, w') => h e w'
           end.

Declare Scope py_scope.
Delimit Scope py_scope with py.
Notation "x <- m ;; k" := (bind m (fun x => k))
  (at level 61, m at next level, right associativity) : py_scope.
Notation "m ;;; k" := (bind m (fun _ => k))
  (at level 61, right associativity) : py_scope.
Open Scope py_scope.

Definition get_table : M (list Row) := fun w => (Returned (table w), w).

Definition set_table (t : list Row) : M unit :=
  fun w => (Returned tt,
            mkWorld t (clock w) (ticks w) (remote w) (api_calls w)
                    (offline_file w) (stdout w)).

(** [datetime.now()], in microseconds. *)
Definition datetime_now : M Z :=
  fun w => (Returned (clock w (ticks w)),
            mkWorld (table w) (clock w) (S (ticks w)) (remote w) (api_calls w)
                    (offline_file w) (stdout w)).

(** [print(s)] *)
Definition print (s : string) : M unit :=
  fun w => (Returned tt,
            mkWorld (table w) (clock w) (ticks w) (remote w) (api_calls w)
                    (offline_file w) (stdout w ++ [s])).

Definition usec : Z := 1000000.

(** [dt.strftime('%Y-%m-%d %H:%M:%S')]: the sub-second part is dropped. *)
Definition strftime (now_us : Z) : Z := now_us / usec.

(** [datetime.strptime(ts, '%Y-%m-%d %H:%M:%S')], back in microseconds. *)
Definition strptime (ts : Z) : Z := ts * usec.

(** ** The Local Store (utils.py 43-98) *)

Definition for_district (s d : string) (r : Row) : bool :=
  String.eqb (state r) s && String.eqb (district r) d.

(** The columns of [UNIQUE(state, district, year, month)]. *)
Definition same_key (a b : Row) : bool :=
  String.eqb (state a) (state b) && String.eqb (district a) (district b)
  && (year a =? year b) && (month a =? month b).

Definition max_opt (ts : list Z) : option Z :=
  match ts with
  | [] => None
  | t :: rest => Some (fold_left Z.max rest t)
  end.

(** [SELECT MAX(updated_at) ... WHERE state = ? AND district = ?]; the
    aggregate over no row is NULL, which the function turns into [None]. *)
Definition get_cache_timestamp (s d : string) : M (option Z) :=
  t <- get_table ;;
  ret (max_opt (map updated_at (filter (for_district s d) t))).

Definition ttl_default : Z := 86400.

(** utils.py 55-61 *)
Definition is_cache_valid (s d : string) (ttl_seconds : Z) : M bool :=
  timestamp <- get_cache_timestamp s d ;;
  match timestamp with
  | None => ret false
  | Some ts =>
      let cache_time := strptime ts in
      now <- datetime_now ;;
      ret (now - cache_time <? ttl_seconds * usec)
  end.

(** [INSERT OR REPLACE]: the rows that collide with the new one on the
    UNIQUE columns are deleted, then the new row is inserted. *)
Definition insert_or_replace (r : Row) (t : list Row) : list Row :=
  filter (fun x => negb (same_key r x)) t ++ [r].

(** One turn of the loop of [save_to_cache] (utils.py 68-83): the key comes
    from the arguments [s], [d] and the record's year and month; the
    time stamp is read from the clock for every record. *)
Definition row_of (s d : string) (record : SrcRecord) (ts : Z) : Row :=
  mkRow s d (src_year record) (src_month record)
        (src_households record) (src_person_days record)
        (src_expenditure record) (src_avg_wage record) ts.

Definition save_record (s d : string) (record : SrcRecord) : M unit :=
  now <- datetime_now ;;
  t <- get_table ;;
  set_table (insert_or_replace (row_of s d record (strftime now)) t).

(** The loop on complete records whose integers SQLite accepts.  On a dict
    that lacks a key, or an integer outside 64 bits, the statement raises:
    that is [Raw.save_to_cache] below, which coincides with this function on
    complete records within range. *)
Fixpoint save_to_cache (s d : string) (data_list : list SrcRecord) : M unit :=
  match data_list with
  | [] => ret tt
  | record :: rest => save_record s d record ;;; save_to_cache s d rest
  end.

(** [ORDER BY year DESC, month DESC] *)
Definition row_geb (a b : Row) : bool :=
  (year b <? year a) || ((year a =? year b) && (month b <=? month a)).

Fixpoint insert_desc (r : Row) (l : list Row) : list Row :=
  match l with
  | [] => [r]
  | x :: xs => if row_geb r x then r :: l else x :: insert_desc r xs
  end.

Definition order_by_desc (l : list Row) : list Row :=
  fold_right insert_desc [] l.

(** utils.py 88-98 *)
Definition get_from_cache (s d : string) : M DataFrame :=
  t <- get_table ;;
  ret (FromSql (order_by_desc (filter (for_district s d) t))).

(** ** The Remote Source (utils.py 118-136) *)

(** The [try] block.  As shipped it holds only [return None] (line 133), the
    request being commented out; it is modelled by the world's [remote], so
    that the handler below has something to handle.  [demo_remote] is the
    block as shipped. *)
Definition api_request (s d : string) : M (option (list SrcRecord)) :=
  fun w => (remote w (api_calls w) s d,
            mkWorld (table w) (clock w) (ticks w) (remote w)
                    (S (api_calls w)) (offline_file w) (stdout w)).

Definition demo_remote : nat -> string -> string -> outcome (option (list SrcRecord)) :=
  fun _ _ _ => Returned None.

Definition fetch_from_api (s d : string) : M (option (list SrcRecord)) :=
  try_except (api_request s d)
    (fun e => match e with
              | Exception msg => print ("API Error: " ++ msg) ;;; ret None
              end).

(** ** The Offline Dataset (utils.py 138-157) *)

(** Truth value of a Python string. *)
Definition truthy_str (s : string) : bool :=
  match s with EmptyString => false | _ => true end.

Definition load_offline_data (s d : string) : M DataFrame :=
  fun w =>
    match offline_file w with
    | Missing => (Returned (FromRecords []), w)
    | Corrupt e => (Raised e, w)
    | Json data =>
        if truthy_str d then
          (Returned (FromRecords
             (filter (fun record => String.eqb (src_state record) s
                                    && String.eqb (src_district record) d) data)), w)
        else
          (Returned (FromRecords
             (filter (fun record => String.eqb (src_state record) s) data)), w)
    end.

(** ** The Retrieval Policy (app.py 271-300) *)

(** Truth value of [api_data]: [None] and the empty list are false. *)
Definition truthy_list {A} (o : option (list A)) : bool :=
  match o with
  | Some (_ :: _) => true
  | _ => false
  end.

Definition payload {A} (o : option (list A)) : list A :=
  match o with Some l => l | None => [] end.

(** [df.to_dict('records')] on a frame built from records. *)
Definition to_dict_records (df : DataFrame) : list SrcRecord :=
  match df with FromRecords recs => recs | FromSql _ => [] end.

Definition Result : Type := DataFrame * string * option Z.

Definition get_district_data (s d : string) : M Result :=
  valid <- is_cache_valid s d ttl_default ;;
  if valid then
    df <- get_from_cache s d ;;
    timestamp <- get_cache_timestamp s d ;;
    ret (df, "cache"%string, timestamp)
  else
    api_data <- fetch_from_api s d ;;
    if truthy_list api_data then
      save_to_cache s d (payload api_data) ;;;
      now <- datetime_now ;;
      ret (FromRecords (payload api_data), "api"%string, Some (strftime now))
    else
      df <- get_from_cache s d ;;
      if empty df then
        df <- load_offline_data s d ;;
        (if negb (empty df) then save_to_cache s d (to_dict_records df)
         else ret tt) ;;;
        timestamp <- get_cache_timestamp s d ;;
        ret (df, "offline"%string, timestamp)
      else
        timestamp <- get_cache_timestamp s d ;;
        ret (df, "cache"%string, timestamp).

(** ** The memoising decorator (app.py 270) *)

(** [@st.cache_data(ttl=86400)] wraps [get_district_data]: Streamlit keeps,
    for each tuple of arguments, the value the function returned, for [ttl]
    seconds of its own timer, and within that time answers a call with the
    kept value without running the function.  The policy proper is the
    function under the decorator, [get_district_data] above; the decorator
    is modelled apart, for any function [f], with the process-wide store
    [memo] and the timer reading [timer] (in seconds) made explicit. *)
Record MemoEntry := mkMemo {
  memo_args : string * string;
  memo_value : Result;
  memo_time : Z
}.

Definition memo_hit (ttl timer : Z) (s d : string) (e : MemoEntry) : bool :=
  String.eqb (fst (memo_args e)) s && String.eqb (snd (memo_args e)) d
  && (timer - memo_time e <? ttl).

Definition st_cache_data (ttl : Z) (f : string -> string -> M Result)
           (timer : Z) (memo : list MemoEntry) (s d : string) (w : World)
  : outcome Result * World * list MemoEntry :=
  match find (memo_hit ttl timer s d) memo with
  | Some e => (Returned (memo_value e), w, memo)
  | None =>
      match f s d w with
      | (Returned r, w') => (Returned r, w', mkMemo (s, d) r timer :: memo)
      | (Raised e, w') => (Raised e, w', memo)
      end
  end.

(** ** The state average (utils.py 166-189) *)

Definition Qsum (l : list Q) : Q := fold_right Qplus 0%Q l.

(** SQL [AVG]: NULL over no row. *)
Definition AVG (l : list Q) : option Q :=
  match l with
  | [] => None
  | _ => Some (Qsum l / inject_Z (Z.of_nat (List.length l)))%Q
  end.

(** Python [int(x)]: towards zero. *)
Definition int (x : Q) : Z := Z.quot (Qnum x) (Zpos (Qden x)).

(** Python [round(x, 2)]: to the nearest hundredth, a tie going to the even
    one.  Taken here on the exact mean; Python takes it on the double that
    SQLite returns, which can lie on the other side of a tie, so the
    statements on the state average speak of the two integer fields only. *)
Definition round2 (x : Q) : Q :=
  let y := (x * 100)%Q in
  let f := Qfloor y in
  let frac := (y - inject_Z f)%Q in
  let n := match (frac ?= 1 # 2)%Q with
           | Lt => f
           | Gt => f + 1
           | Eq => if Z.even f then f else f + 1
           end in
  (n # 100)%Q.

Record StateAverage := mkAvg {
  sa_households : Z;
  sa_person_days : Z;
  sa_expenditure : Q;
  sa_avg_wage : Q
}.

Definition for_month (s : string) (y m : Z) (r : Row) : bool :=
  String.eqb (state r) s && (year r =? y) && (month r =? m).

(** Truth value of [result[0]]: neither NULL nor zero. *)
Definition truthy_num (o : option Q) : bool :=
  match o with
  | None => false
  | Some q => negb (Qeq_bool q 0)
  end.

Definition get_state_average (s : string) (y m : Z) : M (option StateAverage) :=
  t <- get_table ;;
  let rows := filter (for_month s y m) t in
  let r0 := AVG (map (fun r => inject_Z (households r)) rows) in
  let r1 := AVG (map (fun r => inject_Z (person_days r)) rows) in
  let r2 := AVG (map expenditure rows) in
  let r3 := AVG (map avg_wage rows) in
  if truthy_num r0 then
    match r0, r1, r2, r3 with
    | Some a0, Some a1, Some a2, Some a3 =>
        ret (Some (mkAvg (int a0) (int a1) (round2 a2) (round2 a3)))
    | _, _, _, _ => ret None
    end
  else ret None.

(** ** Year-over-year (app.py 488-616) *)

(** [df] is the frame sorted by line 319; the block reads its columns
    [year], [month] and [person_days] only. *)

(** [sorted(df['year'].unique(), reverse=True)] *)
Fixpoint insert_year (y : Z) (l : list Z) : list Z :=
  match l with
  | [] => [y]
  | x :: xs => if x <=? y then y :: l else x :: insert_year y xs
  end.

Definition all_years (df : list Row) : list Z :=
  fold_right insert_year [] (nodup Z.eq_dec (map year df)).

(** One entry of [yoy_data]: the year and the person-days of the first row
    of [df] for that year and month. *)
Definition yoy_entry (df : list Row) (month_num y : Z) : list (Z * Z) :=
  match find (fun r => (year r =? y) && (month r =? month_num)) df with
  | Some record => [(y, person_days record)]
  | None => []
  end.

(** The double loop over [range(5, 11)] and [all_years]. *)
Definition yoy_data (df : list Row) : list (Z * Z) :=
  flat_map (fun month_num => flat_map (yoy_entry df month_num) (all_years df))
           [5; 6; 7; 8; 9; 10].

(** [yoy_df[yoy_df['Year'] == y]['Person-Days'].sum()], as the exact sum:
    the sum of the int64 column as long as it stays within 64 bits. *)
Definition year_total (yoy_df : list (Z * Z)) (y : Z) : Z :=
  fold_right Z.add 0
    (map snd (filter (fun e => fst e =? y) yoy_df)).

(** Lines 615-616: the change is computed only under the guard.  The
    quotient is the exact one; the script's is its double, of the same sign
    for totals within 62 bits. *)
Definition yoy_change (latest_total prev_total : Z) : option Q :=
  if prev_total >? 0 then
    Some ((inject_Z (latest_total - prev_total) / inject_Z prev_total) * 100)%Q
  else None.

(** The whole block: [None] when no percentage is computed. *)
Definition yoy_analysis (df : list Row) : option Q :=
  match all_years df with
  | latest_year :: prev_year :: _ =>
      match yoy_data df with
      | [] => None
      | yoy_df =>
          yoy_change (year_total yoy_df latest_year)
                     (year_total yoy_df prev_year)
      end
  | _ => None
  end.

(** [prev_total] of line 613, when there are two years. *)
Definition prev_total (df : list Row) : option Z :=
  match all_years df with
  | _ :: prev_year :: _ => Some (year_total (yoy_data df) prev_year)
  | _ => None
  end.

(** ** Views used in the statements *)

(** A row with the given value on each UNIQUE column. *)
Definition is_key (s d : string) (y m : Z) (r : Row) : bool :=
  String.eqb (state r) s && String.eqb (district r) d
  && (year r =? y) && (month r =? m).

(** At most one row for each value of the UNIQUE columns. *)
Definition unique_keys (t : list Row) : Prop :=
  forall s d y m, (List.length (filter (is_key s d y m) t) <= 1)%nat.

(** The table that the loop of [save_to_cache] leaves, the clock having
    been read [n] times before. *)
Fixpoint saved_table (s d : string) (data_list : list SrcRecord)
         (clk : nat -> Z) (n : nat) (t : list Row) : list Row :=
  match data_list with
  | [] => t
  | record :: rest =>
      saved_table s d rest clk (S n)
        (insert_or_replace (row_of s d record (strftime (clk n))) t)
  end.

(** The last record of [data_list] for year [y] and month [m], with the
    index of the clock reading that stamps it. *)
Fixpoint last_write (y m : Z) (data_list : list SrcRecord) (n : nat)
  : option (SrcRecord * nat) :=
  match data_list with
  | [] => None
  | record :: rest =>
      match last_write y m rest (S n) with
      | Some x => Some x
      | None =>
          if (src_year record =? y) && (src_month record =? m)
          then Some (record, n) else None
      end
  end.

(** [MAX(updated_at)] over the rows of a district. *)
Definition latest_update (s d : string) (t : list Row) : option Z :=
  max_opt (map updated_at (filter (for_district s d) t)).

(** The rule of [is_cache_valid] at the default TTL: [now] in microseconds,
    [ts] a stored time stamp. *)
Definition within_ttl (now ts : Z) : Prop :=
  now - strptime ts < ttl_default * usec.

(** The [try] block of the next call of [fetch_from_api] yields nothing:
    it raises, returns [None] or returns an empty list. *)
Definition remote_yields_nothing (w : World) (s d : string) : Prop :=
  match remote w (api_calls w) s d with
  | Returned (Some (_ :: _)) => False
  | _ => True
  end.

(** One more reading of the clock. *)
Definition tick (w : World) : World :=
  mkWorld (table w) (clock w) (S (ticks w)) (remote w) (api_calls w)
          (offline_file w) (stdout w).

(** One more execution of the [try] block. *)
Definition called (w : World) : World :=
  mkWorld (table w) (clock w) (ticks w) (remote w) (S (api_calls w))
          (offline_file w) (stdout w).

(** One more line on the standard output. *)
Definition printed (line : string) (w : World) : World :=
  mkWorld (table w) (clock w) (ticks w) (remote w) (api_calls w)
          (offline_file w) (stdout w ++ [line]).

(** The world that [save_to_cache] leaves. *)
Definition saved (s d : string) (recs : list SrcRecord) (w : World) : World :=
  mkWorld (saved_table s d recs (clock w) (ticks w) (table w))
          (clock w) (ticks w + List.length recs) (remote w) (api_calls w)
          (offline_file w) (stdout w).

(** The number of clock readings once [is_cache_valid] has answered. *)
Definition ticks_after_check (w : World) (s d : string) : nat :=
  match latest_update s d (table w) with
  | None => ticks w
  | Some _ => S (ticks w)
  end.

(** The cache of a district is stale or absent. *)
Definition stale_or_absent (w : World) (s d : string) : Prop :=
  match latest_update s d (table w) with
  | None => True
  | Some ts => ~ within_ttl (clock w (ticks w)) ts
  end.

(** The world once [is_cache_valid] has answered. *)
Definition after_check (w : World) (s d : string) : World :=
  match latest_update s d (table w) with
  | None => w
  | Some _ => tick w
  end.

(** The branch of [get_district_data] taken when the remote attempt
    yielded nothing (app.py 289-298). *)
Definition fallback (s d : string) : M Result :=
  df <- get_from_cache s d ;;
  if empty df then
    df <- load_offline_data s d ;;
    (if negb (empty df) then save_to_cache s d (to_dict_records df)
     else ret tt) ;;;
    timestamp <- get_cache_timestamp s d ;;
    ret (df, "offline"%string, timestamp)
  else
    timestamp <- get_cache_timestamp s d ;;
    ret (df, "cache"%string, timestamp).

(** What [load_offline_data] makes of the file. *)
Definition read_offline (f : OfflineFile) (s d : string) : outcome DataFrame :=
  match f with
  | Missing => Returned (FromRecords [])
  | Corrupt e => Raised e
  | Json data =>
      Returned (FromRecords
        (filter (fun record =>
                   if truthy_str d
                   then String.eqb (src_state record) s
                        && String.eqb (src_district record) d
                   else String.eqb (src_state record) s) data))
  end.




Definition person_days_col (rows : list Row) : list Q :=
  map (fun r => inject_Z (person_days r)) rows.

(** ** Sample worlds *)

Module Samples.

Open Scope string_scope.

Definition may24 : SrcRecord :=
  mkSrc "Uttar Pradesh" "Agra" 2024 5 10 100 (5 # 2) 200 (Some 7).

(** [may24] with another number of households. *)
Definition may24' : SrcRecord :=
  mkSrc "Uttar Pradesh" "Agra" 2024 5 11 100 (5 # 2) 200 None.

Definition jun24 : SrcRecord :=
  mkSrc "Uttar Pradesh" "Agra" 2024 6 20 300 (7 # 2) 210 None.

(** A clock that starts at 0.9 s and advances by a second per reading. *)
Definition seconds_clock (n : nat) : Z := 1000000 * Z.of_nat n + 900000.

Definition failing_remote : nat -> string -> string -> outcome (option (list SrcRecord)) :=
  fun _ _ _ => Raised (Exception "ConnectionError").

Definition answering_remote : nat -> string -> string -> outcome (option (list SrcRecord)) :=
  fun _ _ _ => Returned (Some [may24'; jun24]).

(** An empty table, the shipped remote stub, the offline file present. *)
Definition first_run : World :=
  mkWorld [] seconds_clock 0 demo_remote 0 (Json [may24; jun24]) [].

(** The same with a remote that raises. *)
Definition first_run_offline : World :=
  mkWorld [] seconds_clock 0 failing_remote 0 (Json [may24; jun24]) [].


Definition stored_may : Row :=
  mkRow "Uttar Pradesh" "Agra" 2024 5 10 100 (5 # 2) 200 1000.

(** One row written at second 1000, read [hours] hours later. *)
Definition after_hours (hours : Z)
           (r : nat -> string -> string -> outcome (option (list SrcRecord)))
  : World :=
  mkWorld [stored_may] (fun _ => (1000 + hours * 3600) * 1000000) 0 r 0
          Missing [].

(** Two years of May figures, the earlier one with no person-days. *)
Definition two_years : list Row :=
  [ mkRow "Uttar Pradesh" "Agra" 2024 5 10 100 (5 # 2) 200 1000;
    mkRow "Uttar Pradesh" "Agra" 2023 5 10 0 (5 # 2) 200 1000 ].


(** The same with no household at all. *)
Definition no_households : World :=
  mkWorld [ mkRow "Uttar Pradesh" "Agra" 2024 5 0 100 (5 # 2) 200 1000 ]
          seconds_clock 0 demo_remote 0 Missing [].



End Samples.

(** ** The lists of the selectors (utils.py 100-116, 159-164) *)

(** [ORDER BY] on a text column and Python's [sorted] on strings: both
    compare byte by byte. *)
Fixpoint insert_str (x : string) (l : list string) : list string :=
  match l with
  | [] => [x]
  | y :: ys => if String.leb x y then x :: l else y :: insert_str x ys
  end.

Definition sort_str (l : list string) : list string :=
  fold_right insert_str [] l.

(** [SELECT DISTINCT state FROM district_metrics ORDER BY state] *)
Definition get_all_states_from_cache : M (list string) :=
  t <- get_table ;;
  ret (sort_str (nodup string_dec (map state t))).

(** [SELECT DISTINCT district ... WHERE state = ? ORDER BY district] *)
Definition get_districts_from_cache (s : string) : M (list string) :=
  t <- get_table ;;
  ret (sort_str (nodup string_dec
         (map district (filter (fun r => String.eqb (state r) s) t)))).

(** utils.py 159-164.  [load_offline_data(state)] leaves [district] at its
    default [None]; the only use the callee makes of it is the test
    [if district:], in which [None] and the empty string are both false,
    so the call is rendered with the empty string. *)
Definition get_districts_from_offline (s : string) : M (list string) :=
  df <- load_offline_data s "" ;;
  if empty df then ret []
  else ret (sort_str (nodup string_dec (map src_district (to_dict_records df)))).

(** ** The options of the two selectors (app.py 202-219) *)

Definition default_states : list string :=
  ["Uttar Pradesh"; "Maharashtra"; "Karnataka"; "Tamil Nadu"; "Bihar";
   "Rajasthan"]%string.

(** Lines 203-204: [cached_states if cached_states else default_states]. *)
Definition available_states : M (list string) :=
  cached_states <- get_all_states_from_cache ;;
  match cached_states with
  | [] => ret default_states
  | _ => ret cached_states
  end.

(** Lines 215-219: the value of [cached_districts] once the script has
    passed them. *)
Definition cached_districts (selected_state : string) : M (list string) :=
  from_cache <- get_districts_from_cache selected_state ;;
  match from_cache with
  | [] =>
      from_offline <- get_districts_from_offline selected_state ;;
      match from_offline with
      | [] => ret ["Lucknow"%string]
      | _ => ret from_offline
      end
  | _ => ret from_cache
  end.

(** ** The district suggestions (app.py 239-262) *)

(** Python's [needle in hay] on strings. *)
Fixpoint str_in (needle hay : string) : bool :=
  String.prefix needle hay
  || match hay with
     | EmptyString => false
     | String _ rest => str_in needle rest
     end.

Definition common_mappings : list (string * string) :=
  [ ("gomti", "Lucknow"); ("hazratganj", "Lucknow"); ("alambagh", "Lucknow");
    ("assi", "Varanasi"); ("godowlia", "Varanasi"); ("bhu", "Varanasi");
    ("iit kanpur", "Kanpur"); ("kanpur central", "Kanpur");
    ("taj mahal", "Agra"); ("agra fort", "Agra") ]%string.

Definition str_mem (x : string) (l : list string) : bool :=
  existsb (String.eqb x) l.

Section Suggestions.

(** [str.lower], which follows the Unicode tables, is left abstract. *)
Variable lower : string -> string.

(** The first loop (lines 243-245). *)
Definition suggested_by_name (location_lower : string)
           (districts : list string) : list string :=
  filter (fun district => str_in location_lower (lower district)
                          || str_in (lower district) location_lower)
         districts.

(** The second loop (lines 260-262), over the remaining entries of
    [common_mappings], with [suggested_districts] as accumulator. *)
Fixpoint suggested_by_mapping (location_lower : string)
         (districts : list string) (mappings : list (string * string))
         (suggested_districts : list string) : list string :=
  match mappings with
  | [] => suggested_districts
  | (key, district) :: rest =>
      suggested_by_mapping location_lower districts rest
        (if str_in key location_lower && str_mem district districts
            && negb (str_mem district suggested_districts)
         then suggested_districts ++ [district]
         else suggested_districts)
  end.

(** [suggested_districts] after both loops, for a non-empty
    [user_location]. *)
Definition suggested_districts (user_location : string)
           (districts : list string) : list string :=
  let location_lower := lower user_location in
  suggested_by_mapping location_lower districts common_mappings
    (suggested_by_name location_lower districts).

End Suggestions.

(** ** Month names (utils.py 200-207) *)

(** [months.get(month_num, "")] *)
Definition get_month_name (month_num : Z) : string :=
  match month_num with
  | 1 => "January" | 2 => "February" | 3 => "March" | 4 => "April"
  | 5 => "May" | 6 => "June" | 7 => "July" | 8 => "August"
  | 9 => "September" | 10 => "October" | 11 => "November"
  | 12 => "December"
  | _ => ""
  end%string.

(** ** The sentence of the year-over-year block (app.py 615-631) *)

(** Which of the two sentences is written, and with which percentage (the
    text shows it with one decimal). *)
Inductive YoySentence :=
| Increase (pct : Q)
| Decrease (pct : Q).

Definition Qpositive (q : Q) : bool :=
  match (0 ?= q)%Q with Lt => true | _ => false end.

Definition yoy_sentence (latest_total prev_total : Z) : option YoySentence :=
  match yoy_change latest_total prev_total with
  | Some c => Some (if Qpositive c then Increase c else Decrease (Qabs c))
  | None => None
  end.

(** The person-days of the first row of [df] for a year and a month, zero
    when there is none. *)
Definition first_person_days (df : list Row) (y m : Z) : Z :=
  match find (fun r => (year r =? y) && (month r =? m)) df with
  | Some record => person_days record
  | None => 0
  end.

(** ** The comparison of districts (app.py 649-662) *)

(** [df.iloc[0]], as the four figures the loop reads from it. *)
Definition iloc0 (df : DataFrame) : option (Z * Z * Q * Q) :=
  match df with
  | FromSql (r :: _) =>
      Some (households r, person_days r, expenditure r, avg_wage r)
  | FromRecords (r :: _) =>
      Some (src_households r, src_person_days r, src_expenditure r,
            src_avg_wage r)
  | _ => None
  end.

(** The loop over [comparison_districts], with [comparison_data] as
    accumulator; each turn runs the function under the decorator. *)
Fixpoint comparison_loop (selected_state : string)
         (comparison_districts : list string)
         (comparison_data : list (string * (Z * Z * Q * Q)))
  : M (list (string * (Z * Z * Q * Q))) :=
  match comparison_districts with
  | [] => ret comparison_data
  | district :: rest =>
      res <- get_district_data selected_state district ;;
      comparison_loop selected_state rest
        (match iloc0 (fst (fst res)) with
         | Some latest_record => comparison_data ++ [(district, latest_record)]
         | None => comparison_data
         end)
  end.

(** ** The functions on what Python hands them *)

(** [save_to_cache] and the remote branch of [get_district_data] above are
    written for records that have every key and whose integers SQLite can
    store.  Python hands them dicts: a key may be absent ([record['year']]
    then raises KeyError) and an [int] may lie outside the signed 64 bits
    of an SQLite INTEGER ([cursor.execute] then raises OverflowError).
    [Raw] holds the same functions on such dicts; on complete records
    within range they are the functions above ([Raw.save_to_cache_checked]
    below). *)
Module Raw.

(** A dict, by the keys that [save_to_cache] reads: [None] for an absent
    key. *)
Record PyRecord := mkPy {
  py_year : option Z;
  py_month : option Z;
  py_households : option Z;
  py_person_days : option Z;
  py_expenditure : option Q;
  py_avg_wage : option Q
}.

Definition KeyError (key : string) : exn :=
  Exception ("KeyError: '" ++ key ++ "'").

Definition OverflowError : exn :=
  Exception "OverflowError: Python int too large to convert to SQLite INTEGER".

Definition fits_int64 (z : Z) : bool :=
  (- 2 ^ 63 <=? z) && (z <? 2 ^ 63).

(** [record[key]] *)
Definition getitem {A} (key : string) (v : option A) : M A :=
  match v with
  | Some a => ret a
  | None => raise (KeyError key)
  end.

(** The binding of a Python [int] parameter by [cursor.execute]. *)
Definition bind_int (z : Z) : M Z :=
  if fits_int64 z then ret z else raise OverflowError.

(** One turn of the loop (utils.py 69-83): the tuple of parameters is
    built from left to right, the clock being read last, then [execute]
    binds the parameters in order and runs the statement. *)
Definition execute_insert (s d : string) (record : PyRecord) : M unit :=
  y <- getitem "year" (py_year record) ;;
  m <- getitem "month" (py_month record) ;;
  h <- getitem "households" (py_households record) ;;
  p <- getitem "person_days" (py_person_days record) ;;
  e <- getitem "expenditure" (py_expenditure record) ;;
  a <- getitem "avg_wage" (py_avg_wage record) ;;
  now <- datetime_now ;;
  y <- bind_int y ;;
  m <- bind_int m ;;
  h <- bind_int h ;;
  p <- bind_int p ;;
  t <- get_table ;;
  set_table (insert_or_replace (mkRow s d y m h p e a (strftime now)) t).

Fixpoint execute_all (s d : string) (data_list : list PyRecord) : M unit :=
  match data_list with
  | [] => ret tt
  | record :: rest => execute_insert s d record ;;; execute_all s d rest
  end.

(** The table put back to [t]: what closing the connection without
    [commit] does to the inserts of the call. *)
Definition rollback (t : list Row) (w : World) : World :=
  mkWorld t (clock w) (ticks w) (remote w) (api_calls w)
          (offline_file w) (stdout w).

(** utils.py 63-86.  The inserts run in one transaction that line 85
    commits; an exception leaves the function before that line. *)
Definition save_to_cache (s d : string) (data_list : list PyRecord) : M unit :=
  fun w =>
    match execute_all s d data_list w with
    | (Returned tt, w') => (Returned tt, w')
    | (Raised e, w') => (Raised e, rollback (table w) w')
    end.

(** A complete record as a dict. *)
Definition of_src (record : SrcRecord) : PyRecord :=
  mkPy (Some (src_year record)) (Some (src_month record))
       (Some (src_households record)) (Some (src_person_days record))
       (Some (src_expenditure record)) (Some (src_avg_wage record)).


(** What [get_district_data] returns as [df]: a frame as above, or
    [pd.DataFrame(api_data)] on dicts. *)
Inductive Frame :=
| Checked (df : DataFrame)
| FromDicts (recs : list PyRecord).

Definition ResultPy : Type := Frame * string * option Z.

(** utils.py 118-136, the [try] block given as [block]. *)
Definition fetch_from_api (block : outcome (option (list PyRecord)))
           (s d : string) : M (option (list PyRecord)) :=
  try_except (fun w => (block, called w))
    (fun e => match e with
              | Exception msg => print ("API Error: " ++ msg) ;;; ret None
              end).

(** app.py 289-298, the offline records being saved as dicts. *)
Definition fallback (s d : string) : M ResultPy :=
  df <- get_from_cache s d ;;
  if empty df then
    df <- load_offline_data s d ;;
    (if negb (empty df)
     then save_to_cache s d (map of_src (to_dict_records df))
     else ret tt) ;;;
    timestamp <- get_cache_timestamp s d ;;
    ret (Checked df, "offline"%string, timestamp)
  else
    timestamp <- get_cache_timestamp s d ;;
    ret (Checked df, "cache"%string, timestamp).

(** app.py 271-300 for a [try] block [block]. *)
Definition get_district_data (block : outcome (option (list PyRecord)))
           (s d : string) : M ResultPy :=
  valid <- is_cache_valid s d ttl_default ;;
  if valid then
    df <- get_from_cache s d ;;
    timestamp <- get_cache_timestamp s d ;;
    ret (Checked df, "cache"%string, timestamp)
  else
    api_data <- fetch_from_api block s d ;;
    if truthy_list api_data then
      save_to_cache s d (payload api_data) ;;;
      now <- datetime_now ;;
      ret (FromDicts (payload api_data), "api"%string, Some (strftime now))
    else fallback s d.

End Raw.



(** Which of the two sentences it is. *)
Definition is_increase (sentence : YoySentence) : bool :=
  match sentence with
  | Increase _ => true
  | Decrease _ => false
  end.

(** ** More sample worlds *)

Module RawSamples.

Open Scope string_scope.




End RawSamples.

(** ** Facts about the Local Store *)

Section Store.

Lemma is_key_spec s d y m r :
  is_key s d y m r = true <->
  state r = s /\ district r = d /\ year r = y /\ month r = m.
Proof.
  unfold is_key. rewrite !andb_true_iff, !String.eqb_eq, !Z.eqb_eq. tauto.
Qed.

Lemma same_key_spec a b :
  same_key a b = true <->
  state a = state b /\ district a = district b
  /\ year a = year b /\ month a = month b.
Proof.
  unfold same_key. rewrite !andb_true_iff, !String.eqb_eq, !Z.eqb_eq. tauto.
Qed.

Lemma is_key_row_of s d record ts :
  is_key s d (src_year record) (src_month record) (row_of s d record ts) = true.
Proof. apply is_key_spec. simpl. auto. Qed.

Lemma filter_nil_of_false {A} (p : A -> bool) l :
  (forall x, In x l -> p x = false) -> filter p l = [].
Proof.
  induction l as [|a l IH]; simpl; intros H; [reflexivity|].
  rewrite (H a (or_introl eq_refl)). apply IH. intros x Hx. apply H. now right.
Qed.

Lemma filter_filter_id {A} (p q : A -> bool) l :
  (forall x, p x = true -> q x = true) ->
  filter p (filter q l) = filter p l.
Proof.
  intros H. induction l as [|a l IH]; simpl; [reflexivity|].
  destruct (q a) eqn:Q; simpl.
  - now rewrite IH.
  - destruct (p a) eqn:P; [|exact IH].
    apply H in P. congruence.
Qed.

(** A row written under a key is the only row under that key. *)
Lemma lookup_insert_same s d y m r t :
  is_key s d y m r = true ->
  filter (is_key s d y m) (insert_or_replace r t) = [r].
Proof.
  intros Hr. unfold insert_or_replace. rewrite filter_app. simpl. rewrite Hr.
  rewrite filter_nil_of_false; [reflexivity|].
  intros x Hx. apply filter_In in Hx. destruct Hx as [_ Hx].
  apply negb_true_iff in Hx.
  destruct (is_key s d y m x) eqn:E; [|reflexivity].
  apply is_key_spec in Hr. apply is_key_spec in E.
  assert (same_key r x = true) by (apply same_key_spec; intuition congruence).
  congruence.
Qed.

(** Writing under one key leaves the rows under the other keys alone. *)
Lemma lookup_insert_other s d y m r t :
  is_key s d y m r = false ->
  filter (is_key s d y m) (insert_or_replace r t) = filter (is_key s d y m) t.
Proof.
  intros Hr. unfold insert_or_replace. rewrite filter_app. simpl. rewrite Hr.
  rewrite app_nil_r.
  induction t as [|x t IH]; simpl; [reflexivity|].
  destruct (same_key r x) eqn:S; simpl.
  - destruct (is_key s d y m x) eqn:E; [|exact IH].
    apply same_key_spec in S. apply is_key_spec in E.
    assert (is_key s d y m r = true) by (apply is_key_spec; intuition congruence).
    congruence.
  - destruct (is_key s d y m x); [f_equal|]; exact IH.
Qed.

Lemma insert_or_replace_unique r t :
  unique_keys t -> unique_keys (insert_or_replace r t).
Proof.
  intros U s d y m.
  destruct (is_key s d y m r) eqn:E.
  - rewrite lookup_insert_same by assumption. simpl. lia.
  - rewrite lookup_insert_other by assumption. apply U.
Qed.

Lemma saved_table_unique s d recs clk : forall n t,
  unique_keys t -> unique_keys (saved_table s d recs clk n t).
Proof.
  induction recs as [|r recs IH]; simpl; intros n t U; [exact U|].
  apply IH. now apply insert_or_replace_unique.
Qed.

(** [save_to_cache] never raises; it reads the clock once per record and
    touches nothing but the table. *)
Lemma save_to_cache_run s d recs : forall w,
  save_to_cache s d recs w =
  (Returned tt,
   mkWorld (saved_table s d recs (clock w) (ticks w) (table w))
           (clock w) (ticks w + List.length recs) (remote w) (api_calls w)
           (offline_file w) (stdout w)).
Proof.
  induction recs as [|r recs IH]; intros w; simpl.
  - destruct w; simpl. now rewrite Nat.add_0_r.
  - unfold bind at 1. unfold save_record, bind, datetime_now, get_table, set_table.
    simpl. rewrite IH. simpl. now rewrite Nat.add_succ_r.
Qed.

(** What a key holds after [save_to_cache]: the last record written under
    it, or what it held before. *)
Lemma saved_table_lookup s d y m recs clk : forall n t,
  filter (is_key s d y m) (saved_table s d recs clk n t) =
  match last_write y m recs n with
  | Some (record, i) => [row_of s d record (strftime (clk i))]
  | None => filter (is_key s d y m) t
  end.
Proof.
  induction recs as [|r recs IH]; intros n t; simpl; [reflexivity|].
  rewrite IH. destruct (last_write y m recs (S n)) as [[r' i]|]; [reflexivity|].
  destruct ((src_year r =? y) && (src_month r =? m)) eqn:E.
  - apply andb_true_iff in E. destruct E as [Ey Em].
    apply Z.eqb_eq in Ey. apply Z.eqb_eq in Em. subst y m.
    apply lookup_insert_same, is_key_row_of.
  - apply lookup_insert_other. unfold is_key, row_of. simpl.
    rewrite !String.eqb_refl. simpl. exact E.
Qed.

Lemma insert_desc_perm r l : Permutation (insert_desc r l) (r :: l).
Proof.
  induction l as [|x l IH]; simpl; [reflexivity|].
  destruct (row_geb r x); [reflexivity|].
  rewrite IH. apply perm_swap.
Qed.

Lemma order_by_desc_perm l : Permutation (order_by_desc l) l.
Proof.
  induction l as [|x l IH]; simpl; [reflexivity|].
  rewrite insert_desc_perm. now constructor.
Qed.

Lemma filter_perm {A} (p : A -> bool) l l' :
  Permutation l l' -> Permutation (filter p l) (filter p l').
Proof.
  induction 1; simpl.
  - reflexivity.
  - destruct (p x); [constructor|]; assumption.
  - destruct (p x), (p y); try reflexivity. apply perm_swap.
  - etransitivity; eassumption.
Qed.

Lemma is_key_for_district s d y m x :
  is_key s d y m x = true -> for_district s d x = true.
Proof.
  unfold is_key, for_district. rewrite !andb_true_iff. tauto.
Qed.


Lemma row_geb_total a b : row_geb a b = false -> row_geb b a = true.
Proof.
  unfold row_geb. rewrite orb_false_iff, orb_true_iff, !andb_false_iff.
  rewrite andb_true_iff, !Z.ltb_ge, !Z.ltb_lt, !Z.eqb_neq, !Z.eqb_eq.
  rewrite Z.leb_gt, Z.leb_le. lia.
Qed.

Lemma insert_desc_hd r a l :
  row_geb a r = true ->
  HdRel (fun x y => row_geb x y = true) a l ->
  HdRel (fun x y => row_geb x y = true) a (insert_desc r l).
Proof.
  intros Har H. destruct l as [|x l]; simpl.
  - now constructor.
  - destruct (row_geb r x); constructor; [exact Har|now inversion H].
Qed.

Lemma insert_desc_sorted r l :
  Sorted (fun x y => row_geb x y = true) l ->
  Sorted (fun x y => row_geb x y = true) (insert_desc r l).
Proof.
  induction 1 as [|a l S IH H]; simpl.
  - repeat constructor.
  - destruct (row_geb r a) eqn:E.
    + constructor; [now constructor|now constructor].
    + constructor; [exact IH|].
      apply insert_desc_hd; [now apply row_geb_total|exact H].
Qed.

(** The answer of the query is in the order [year DESC, month DESC]. *)
Lemma order_by_desc_sorted l :
  Sorted (fun x y => row_geb x y = true) (order_by_desc l).
Proof.
  induction l as [|x l IH]; simpl; [constructor|].
  now apply insert_desc_sorted.
Qed.

End Store.

(** ** How each call changes the world *)

Section Runs.

Lemma bind_run {A B} (m : M A) (k : A -> M B) w :
  bind m k w = match m w with
               | (Returned a, w') => k a w'
               | (Raised e, w') => (Raised e, w')
               end.
Proof. reflexivity. Qed.

Lemma get_cache_timestamp_run s d w :
  get_cache_timestamp s d w = (Returned (latest_update s d (table w)), w).
Proof. reflexivity. Qed.

Lemma get_from_cache_run s d w :
  get_from_cache s d w =
  (Returned (FromSql (order_by_desc (filter (for_district s d) (table w)))), w).
Proof. reflexivity. Qed.

Lemma is_cache_valid_run s d ttl w :
  is_cache_valid s d ttl w =
  match latest_update s d (table w) with
  | None => (Returned false, w)
  | Some ts =>
      (Returned (clock w (ticks w) - strptime ts <? ttl * usec), tick w)
  end.
Proof.
  unfold is_cache_valid. rewrite bind_run, get_cache_timestamp_run.
  destruct (latest_update s d (table w)); reflexivity.
Qed.

Lemma fetch_from_api_run s d w :
  fetch_from_api s d w =
  match remote w (api_calls w) s d with
  | Returned r => (Returned r, called w)
  | Raised (Exception msg) =>
      (Returned None, printed ("API Error: " ++ msg) (called w))
  end.
Proof.
  unfold fetch_from_api, try_except, api_request.
  destruct (remote w (api_calls w) s d) as [r|[msg]]; reflexivity.
Qed.

Lemma save_to_cache_saved s d recs w :
  save_to_cache s d recs w = (Returned tt, saved s d recs w).
Proof. apply save_to_cache_run. Qed.

Lemma fold_left_max_spec rest : forall t,
  let m := fold_left Z.max rest t in
  (m = t \/ In m rest) /\ t <= m /\ forall x, In x rest -> x <= m.
Proof.
  induction rest as [|a rest IH]; intros t; simpl.
  - split; [now left|]. split; [lia|]. intros x [].
  - destruct (IH (Z.max t a)) as [H1 [H2 H3]]. split; [|split].
    + destruct H1 as [H1|H1]; [|now right; right].
      rewrite H1. destruct (Z.max_spec t a) as [[_ E]|[_ E]]; rewrite E; auto.
    + lia.
    + intros x [<-|Hx]; [lia|now apply H3].
Qed.

(** [MAX] is an element of the column and bounds it. *)
Lemma max_opt_spec l m :
  max_opt l = Some m -> In m l /\ forall x, In x l -> x <= m.
Proof.
  destruct l as [|t rest]; simpl; [discriminate|].
  intros E. injection E as <-.
  destruct (fold_left_max_spec rest t) as [H1 [H2 H3]]. split.
  - destruct H1 as [H1|H1]; [left; now rewrite H1|now right].
  - intros x [<-|Hx]; [exact H2|now apply H3].
Qed.

Lemma latest_update_some s d t ts :
  latest_update s d t = Some ts -> filter (for_district s d) t <> [].
Proof.
  unfold latest_update. destruct (filter (for_district s d) t); [discriminate|].
  discriminate.
Qed.

Lemma latest_update_none s d t :
  latest_update s d t = None <-> filter (for_district s d) t = [].
Proof.
  unfold latest_update. destruct (filter (for_district s d) t); simpl.
  - tauto.
  - split; discriminate.
Qed.

Lemma order_by_desc_nil l : order_by_desc l = [] <-> l = [].
Proof.
  split; intros E.
  - apply Permutation_nil. rewrite <- E. apply order_by_desc_perm.
  - now subst.
Qed.

Lemma empty_from_sql_sorted l :
  empty (FromSql (order_by_desc l)) = match l with [] => true | _ => false end.
Proof.
  destruct l as [|a l]; [reflexivity|].
  destruct (order_by_desc (a :: l)) eqn:E; [|reflexivity].
  apply (proj1 (order_by_desc_nil _)) in E. discriminate E.
Qed.

Lemma last_write_range y m recs : forall n record i,
  last_write y m recs n = Some (record, i) ->
  In record recs /\ src_year record = y /\ src_month record = m
  /\ (n <= i < n + List.length recs)%nat.
Proof.
  induction recs as [|r recs IH]; intros n record i; simpl; [discriminate|].
  destruct (last_write y m recs (S n)) as [[r' i']|] eqn:L.
  - intros E. injection E as <- <-. apply IH in L. intuition lia.
  - destruct ((src_year r =? y) && (src_month r =? m)) eqn:E; [|discriminate].
    intros E'. injection E' as <- <-.
    apply andb_true_iff in E. rewrite !Z.eqb_eq in E. intuition lia.
Qed.

Lemma last_write_in y m recs : forall n record,
  In record recs -> src_year record = y -> src_month record = m ->
  last_write y m recs n <> None.
Proof.
  induction recs as [|r recs IH]; intros n record; simpl; [tauto|].
  intros [->|Hin] Hy Hm.
  - destruct (last_write y m recs (S n)); [discriminate|].
    subst. rewrite !Z.eqb_refl. discriminate.
  - destruct (last_write y m recs (S n)) eqn:L; [discriminate|].
    exfalso. now apply (IH (S n) record).
Qed.

End Runs.

(** ** The Retrieval Policy, step by step *)

Lemma within_ttl_ltb now ts :
  within_ttl now ts <-> (now - strptime ts <? ttl_default * usec) = true.
Proof. unfold within_ttl. symmetry. apply Z.ltb_lt. Qed.

Lemma not_within_ttl_ltb now ts :
  ~ within_ttl now ts <-> (now - strptime ts <? ttl_default * usec) = false.
Proof. rewrite within_ttl_ltb. apply not_true_iff_false. Qed.

(** On a valid cache the policy answers from the table. *)
Lemma get_district_data_hit s d w ts :
  latest_update s d (table w) = Some ts ->
  within_ttl (clock w (ticks w)) ts ->
  get_district_data s d w =
  (Returned (FromSql (order_by_desc (filter (for_district s d) (table w))),
             "cache"%string, Some ts), tick w).
Proof.
  intros L V. apply within_ttl_ltb in V. unfold get_district_data.
  rewrite bind_run, is_cache_valid_run, L, V.
  rewrite bind_run, get_from_cache_run, bind_run, get_cache_timestamp_run.
  simpl table. rewrite L. reflexivity.
Qed.

(** C1.  When the table holds rows for (state, district) and the latest
    [updated_at] of them is less than 24 hours before the clock reading,
    [get_district_data] returns the rows of that district (in the order of
    the query), the source "cache" (the spec's [cached]) and that latest
    time stamp; the [try] block of [fetch_from_api] is not executed and the
    table is left as it was. *)
Theorem cache_hit_returns_cached (w : World) (s d : string) (ts : Z) :
  latest_update s d (table w) = Some ts ->
  within_ttl (clock w (ticks w)) ts ->
  exists rows w',
    get_district_data s d w = (Returned (FromSql rows, "cache"%string, Some ts), w')
    /\ Permutation rows (filter (for_district s d) (table w))
    /\ rows <> []
    /\ (forall r, In r rows -> updated_at r <= ts)
    /\ api_calls w' = api_calls w
    /\ table w' = table w.
Proof.
  intros L V.
  exists (order_by_desc (filter (for_district s d) (table w))), (tick w).
  split; [|split; [|split; [|split; [|split]]]].
  - now apply get_district_data_hit.
  - apply order_by_desc_perm.
  - intros E. apply (proj1 (order_by_desc_nil _)) in E.
    apply latest_update_some in L. contradiction.
  - intros r Hr. apply max_opt_spec in L. destruct L as [_ L]. apply L.
    apply in_map. eapply Permutation_in; [apply order_by_desc_perm|exact Hr].
  - reflexivity.
  - reflexivity.
Qed.

Lemma after_check_fields w s d :
  table (after_check w s d) = table w
  /\ clock (after_check w s d) = clock w
  /\ ticks (after_check w s d) = ticks_after_check w s d
  /\ remote (after_check w s d) = remote w
  /\ api_calls (after_check w s d) = api_calls w
  /\ offline_file (after_check w s d) = offline_file w.
Proof.
  unfold after_check, ticks_after_check.
  destruct (latest_update s d (table w)); repeat split.
Qed.

(** On a stale or absent cache the policy goes to the remote. *)
Lemma get_district_data_miss s d w :
  stale_or_absent w s d ->
  get_district_data s d w =
  (api_data <- fetch_from_api s d ;;
   if truthy_list api_data then
     save_to_cache s d (payload api_data) ;;;
     now <- datetime_now ;;
     ret (FromRecords (payload api_data), "api"%string, Some (strftime now))
   else fallback s d) (after_check w s d).
Proof.
  unfold stale_or_absent, after_check, get_district_data. intros H.
  rewrite bind_run, is_cache_valid_run.
  destruct (latest_update s d (table w)) as [ts|]; [|reflexivity].
  apply not_within_ttl_ltb in H. rewrite H. reflexivity.
Qed.

(** A remote attempt that yields nothing sends the policy to [fallback],
    in a world that differs by the call count and, after an exception, by a
    printed line. *)
Lemma get_district_data_nothing s d w :
  stale_or_absent w s d ->
  remote_yields_nothing w s d ->
  exists w1,
    get_district_data s d w = fallback s d w1
    /\ table w1 = table w /\ clock w1 = clock w
    /\ ticks w1 = ticks_after_check w s d
    /\ api_calls w1 = S (api_calls w)
    /\ offline_file w1 = offline_file w.
Proof.
  intros H N. rewrite get_district_data_miss by assumption.
  destruct (after_check_fields w s d) as (T & C & K & R & A & O).
  rewrite bind_run, fetch_from_api_run, R, A.
  unfold remote_yields_nothing in N.
  destruct (remote w (api_calls w) s d) as [[[|r recs]|]|[msg]];
    try contradiction;
    (eexists; split; [reflexivity|]; simpl; rewrite T, C, K, A, O; repeat split).
Qed.


Lemma load_offline_data_run s d w :
  load_offline_data s d w = (read_offline (offline_file w) s d, w).
Proof.
  unfold load_offline_data, read_offline.
  destruct (offline_file w); try reflexivity.
  destruct (truthy_str d); reflexivity.
Qed.

(** [fallback], case by case. *)
Lemma fallback_run s d w :
  fallback s d w =
  match filter (for_district s d) (table w) with
  | _ :: _ =>
      (Returned (FromSql (order_by_desc (filter (for_district s d) (table w))),
                 "cache"%string, latest_update s d (table w)), w)
  | [] =>
      match read_offline (offline_file w) s d with
      | Raised e => (Raised e, w)
      | Returned df =>
          if empty df
          then (Returned (df, "offline"%string, latest_update s d (table w)), w)
          else (Returned (df, "offline"%string,
                          latest_update s d
                            (table (saved s d (to_dict_records df) w))),
                saved s d (to_dict_records df) w)
      end
  end.
Proof.
  unfold fallback.
  rewrite bind_run, get_from_cache_run, empty_from_sql_sorted.
  destruct (filter (for_district s d) (table w)) eqn:E.
  - rewrite bind_run, load_offline_data_run.
    destruct (read_offline (offline_file w) s d) as [df|e]; [|reflexivity].
    destruct (empty df); simpl negb; cbv iota.
    + reflexivity.
    + rewrite bind_run, save_to_cache_saved. reflexivity.
  - reflexivity.
Qed.

Lemma lookup_in_district s d y m t row :
  filter (is_key s d y m) t = [row] -> filter (for_district s d) t <> [].
Proof.
  intros E N.
  assert (I : In row (filter (is_key s d y m) t)) by (rewrite E; now left).
  apply filter_In in I. destruct I as [I K].
  assert (I' : In row (filter (for_district s d) t)).
  { apply filter_In. split; [exact I|]. eapply is_key_for_district, K. }
  rewrite N in I'. exact I'.
Qed.

(** Every record handed to [save_to_cache] leaves a row under its key. *)
Lemma saved_table_has s d recs clk n t record :
  In record recs ->
  exists r' i,
    filter (is_key s d (src_year record) (src_month record))
           (saved_table s d recs clk n t) = [row_of s d r' (strftime (clk i))]
    /\ In r' recs /\ (n <= i < n + List.length recs)%nat.
Proof.
  intros I. rewrite saved_table_lookup.
  destruct (last_write (src_year record) (src_month record) recs n)
    as [[r' i]|] eqn:L.
  - exists r', i. apply last_write_range in L. intuition.
  - exfalso. now apply (last_write_in _ _ recs n record I eq_refl eq_refl).
Qed.

Lemma read_offline_raised f s d e :
  read_offline f s d = Raised e -> f = Corrupt e.
Proof. destruct f; simpl; intros H; try discriminate. now injection H as ->. Qed.


(** The [try] block as shipped never has data: with it the policy never
    takes the "api" branch. *)
Lemma fetch_from_api_demo (w : World) (s d : string) :
  remote w = demo_remote ->
  fst (fetch_from_api s d w) = Returned None
  /\ forall df src ts w',
       get_district_data s d w = (Returned (df, src, ts), w') ->
       src <> "api"%string.
Proof.
  intros R. split.
  - rewrite fetch_from_api_run, R. reflexivity.
  - intros df src ts w' E.
    destruct (latest_update s d (table w)) as [t|] eqn:L.
    + destruct (clock w (ticks w) - strptime t <? ttl_default * usec) eqn:V.
      * apply within_ttl_ltb in V.
        rewrite (get_district_data_hit s d w t L V) in E.
        injection E as _ <- _ _. discriminate.
      * apply not_within_ttl_ltb in V.
        assert (St : stale_or_absent w s d)
          by (unfold stale_or_absent; now rewrite L).
        destruct (get_district_data_nothing s d w St) as (w1 & E1 & _).
        { unfold remote_yields_nothing. now rewrite R. }
        rewrite E1, fallback_run in E.
        destruct (filter (for_district s d) (table w1)).
        -- destruct (read_offline (offline_file w1) s d) as [df'|e]; [|discriminate].
           destruct (empty df'); injection E as _ <- _ _; discriminate.
        -- injection E as _ <- _ _. discriminate.
    + assert (St : stale_or_absent w s d)
        by (unfold stale_or_absent; now rewrite L).
      destruct (get_district_data_nothing s d w St) as (w1 & E1 & _).
      { unfold remote_yields_nothing. now rewrite R. }
      rewrite E1, fallback_run in E.
      destruct (filter (for_district s d) (table w1)).
      * destruct (read_offline (offline_file w1) s d) as [df'|e]; [|discriminate].
        destruct (empty df'); injection E as _ <- _ _; discriminate.
      * injection E as _ <- _ _. discriminate.
Qed.

(** ** Year-over-year change *)

(** The total of the previous year is what the guard of line 615 tests. *)
Lemma yoy_analysis_guard df q :
  yoy_analysis df = Some q ->
  exists latest prev,
    prev_total df = Some prev /\ 0 < prev
    /\ yoy_change latest prev = Some q
    /\ (q * inject_Z prev == inject_Z (latest - prev) * 100)%Q.
Proof.
  unfold yoy_analysis, prev_total.
  destruct (all_years df) as [|l [|p rest]]; try discriminate.
  destruct (yoy_data df) as [|e yoy] eqn:E; [discriminate|].
  set (lt := year_total (e :: yoy) l). set (pt := year_total (e :: yoy) p).
  unfold yoy_change. destruct (pt >? 0) eqn:G; [|discriminate].
  intros H. injection H as <-. apply Z.gtb_lt in G.
  exists lt, pt. split; [reflexivity|]. split; [exact G|]. split.
  - unfold yoy_change. now rewrite (proj2 (Z.gtb_lt pt 0) G).
  - field. intros H. unfold Qeq in H. simpl in H. lia.
Qed.

(** C8.  When the person-days of the previous year total zero, no
    percentage is computed: [yoy_change] answers [None] whatever the total
    of the latest year, and so does the whole year-over-year block. *)
Theorem yoy_undefined_when_previous_zero (df : list Row) (latest_total : Z) :
  prev_total df = Some 0 ->
  yoy_analysis df = None /\ yoy_change latest_total 0 = None.
Proof.
  intros P. split; [|reflexivity].
  destruct (yoy_analysis df) as [q|] eqn:E; [|reflexivity].
  apply yoy_analysis_guard in E. destruct E as (l & p & P' & G & _).
  rewrite P in P'. injection P' as <-. lia.
Qed.

(** ** The state average *)


(** [int] drops the fractional part: it moves towards zero by less than
    one. *)
Lemma int_spec (q : Q) :
  (0 <= q -> inject_Z (int q) <= q /\ q < inject_Z (int q + 1))%Q
  /\ (q <= 0 -> inject_Z (int q - 1) < q /\ q <= inject_Z (int q))%Q.
Proof.
  destruct q as [n dn]. unfold int, Qle, Qlt. simpl.
  pose proof (Z.quot_rem' n (Z.pos dn)) as E.
  split; intros H.
  - assert (0 <= n) by lia.
    pose proof (Z.rem_bound_pos n (Z.pos dn)). nia.
  - assert (n <= 0) by lia.
    pose proof (Z.rem_bound_pos_neg n (Z.pos dn)). nia.
Qed.

(** [round2] lands on a hundredth within half a hundredth of its
    argument. *)
Lemma round2_spec (q : Q) :
  (exists n, round2 q = n # 100)
  /\ (q - (1 # 200) <= round2 q /\ round2 q <= q + (1 # 200))%Q.
Proof.
  unfold round2.
  set (y := (q * 100)%Q). set (f := Qfloor y).
  assert (Hy : (y == q * 100)%Q) by reflexivity.
  assert (L : (inject_Z f <= y)%Q) by apply Qfloor_le.
  assert (U : (y < inject_Z (f + 1))%Q) by apply Qlt_floor.
  rewrite inject_Z_plus in U.
  assert (Mk : forall n, (n # 100 == inject_Z n * (1 # 100))%Q).
  { intros n. unfold Qeq. simpl. lia. }
  split.
  - eexists. reflexivity.
  - destruct (Qcompare_spec (y - inject_Z f) (1 # 2)) as [C|C|C];
      [destruct (Z.even f)| |]; rewrite Mk, ?inject_Z_plus;
      change (inject_Z 1) with 1%Q in *; clearbody y f; split; lra.
Qed.

(** ** Time stamps and freshness *)




(** ** The claims at the sample worlds *)

Section Witnesses.

Import Samples.
Open Scope string_scope.

Lemma cache_hit_returns_cached_witness :
  latest_update "Uttar Pradesh" "Agra" (table (after_hours 1 failing_remote)) = Some 1000
  /\ within_ttl (clock (after_hours 1 failing_remote) 0%nat) 1000
  /\ exists rows w',
       get_district_data "Uttar Pradesh" "Agra" (after_hours 1 failing_remote)
       = (Returned (FromSql rows, "cache", Some 1000), w')
       /\ api_calls w' = 0%nat.
Proof.
  assert (L : latest_update "Uttar Pradesh" "Agra" (table (after_hours 1 failing_remote))
              = Some 1000) by reflexivity.
  assert (V : within_ttl (clock (after_hours 1 failing_remote)
                                (ticks (after_hours 1 failing_remote))) 1000)
    by (vm_compute; reflexivity).
  split; [exact L|]. split; [exact V|].
  destruct (cache_hit_returns_cached _ _ _ _ L V) as (rows & w' & E & _ & _ & _ & A & _).
  exists rows, w'. split; [exact E|exact A].
Defined.


Lemma yoy_undefined_when_previous_zero_witness :
  prev_total two_years = Some 0
  /\ yoy_analysis two_years = None
  /\ yoy_change 100 0 = None.
Proof.
  split; [reflexivity|].
  exact (yoy_undefined_when_previous_zero two_years 100 eq_refl).
Defined.



(** Rows exist and yet the function returns [None]: the test on
    [result[0]] takes a zero mean for the absence of rows. *)
Lemma state_average_zero_households :
  filter (for_month "Uttar Pradesh" 2024 5) (table no_households) <> []
  /\ fst (get_state_average "Uttar Pradesh" 2024 5 no_households) = Returned None.
Proof. split; [discriminate|reflexivity]. Qed.



(** Through the decorator the second call of the offline scenario replays
    the first answer, source "offline"; the function under it answers
    "cache" in the same world. *)
Lemma decorated_second_call_replays :
  exists df ts w1 memo1,
    st_cache_data 86400 get_district_data 0 [] "Uttar Pradesh" "Agra" first_run_offline
    = (Returned (df, "offline", ts), w1, memo1)
    /\ fst (fst (st_cache_data 86400 get_district_data 60 memo1
                   "Uttar Pradesh" "Agra" w1))
       = Returned (df, "offline", ts)
    /\ exists rows,
         fst (get_district_data "Uttar Pradesh" "Agra" w1)
         = Returned (FromSql rows, "cache", ts).
Proof.
  do 4 eexists. split; [reflexivity|]. split; [reflexivity|].
  eexists. reflexivity.
Qed.

End Witnesses.

(** ** The policy as a whole *)

Section Policy.

Lemma valid_or_stale s d w :
  (exists ts, latest_update s d (table w) = Some ts
              /\ within_ttl (clock w (ticks w)) ts)
  \/ stale_or_absent w s d.
Proof.
  unfold stale_or_absent.
  destruct (latest_update s d (table w)) as [ts|]; [|now right].
  destruct (clock w (ticks w) - strptime ts <? ttl_default * usec) eqn:V.
  - left. exists ts. split; [reflexivity|now apply within_ttl_ltb].
  - right. now apply not_within_ttl_ltb.
Qed.

Lemma data_or_nothing s d w :
  (exists recs, remote w (api_calls w) s d = Returned (Some recs) /\ recs <> [])
  \/ remote_yields_nothing w s d.
Proof.
  unfold remote_yields_nothing.
  destruct (remote w (api_calls w) s d) as [[[|r recs]|]|e]; try (now right).
  left. exists (r :: recs). split; [reflexivity|discriminate].
Qed.

(** The "api" branch, with the world it leaves. *)
Lemma get_district_data_api s d w recs :
  stale_or_absent w s d ->
  remote w (api_calls w) s d = Returned (Some recs) ->
  recs <> [] ->
  get_district_data s d w =
  (Returned (FromRecords recs, "api"%string,
             Some (strftime (clock w (ticks_after_check w s d + List.length recs)))),
   tick (saved s d recs (called (after_check w s d)))).
Proof.
  intros St R NE.
  destruct (after_check_fields w s d) as (T & C & K & Rm & A & O).
  assert (Tr : truthy_list (Some recs) = true)
    by (destruct recs; [congruence|reflexivity]).
  rewrite get_district_data_miss by assumption.
  rewrite bind_run, fetch_from_api_run, Rm, A, R.
  cbv beta iota. rewrite Tr. unfold payload.
  rewrite bind_run, save_to_cache_saved.
  unfold bind, datetime_now, ret, tick, saved, called.
  simpl. rewrite ?C, ?K. reflexivity.
Qed.

Lemma read_offline_records f s d df :
  read_offline f s d = Returned df -> exists recs, df = FromRecords recs.
Proof.
  destruct f; simpl; intros H; try discriminate; injection H as <-; eauto.
Qed.

(** Every way [get_district_data] can end. *)
Lemma get_district_data_shape s d w :
  exists o w',
    get_district_data s d w = (o, w')
    /\ (api_calls w <= api_calls w' <= S (api_calls w))%nat
    /\ (table w' = table w
        \/ exists recs,
             recs <> []
             /\ table w' = saved_table s d recs (clock w)
                             (ticks_after_check w s d) (table w))
    /\ match o with
       | Raised e => offline_file w = Corrupt e /\ table w' = table w
       | Returned (df, src, ts) =>
           (src = "cache"%string
            /\ df = FromSql (order_by_desc (filter (for_district s d) (table w)))
            /\ filter (for_district s d) (table w) <> []
            /\ ts = latest_update s d (table w)
            /\ table w' = table w)
           \/ (src = "api"%string
               /\ exists recs t,
                    df = FromRecords recs /\ recs <> [] /\ ts = Some t
                    /\ table w' = saved_table s d recs (clock w)
                                    (ticks_after_check w s d) (table w))
           \/ (src = "offline"%string
               /\ filter (for_district s d) (table w) = []
               /\ exists recs,
                    df = FromRecords recs
                    /\ ((recs = [] /\ ts = None /\ table w' = table w)
                        \/ (recs <> [] /\ ts = latest_update s d (table w')
                            /\ table w' = saved_table s d recs (clock w)
                                            (ticks_after_check w s d) (table w))))
       end.
Proof.
  destruct (valid_or_stale s d w) as [(ts & L & V)|St].
  { rewrite (get_district_data_hit s d w ts L V).
    do 2 eexists. split; [reflexivity|]. simpl.
    split; [lia|]. split; [now left|]. left.
    repeat split; auto. now apply latest_update_some in L. }
  destruct (data_or_nothing s d w) as [(recs & R & NE)|N].
  { rewrite (get_district_data_api s d w recs St R NE).
    destruct (after_check_fields w s d) as (T & C & K & Rm & A & O).
    do 2 eexists. split; [reflexivity|]. simpl. rewrite A, T, C, K.
    split; [lia|]. split; [right; exists recs; now split|].
    right. left. split; [reflexivity|]. exists recs. eexists. now repeat split. }
  destruct (get_district_data_nothing s d w St N) as (w1 & E & T & C & K & A & O).
  rewrite E, fallback_run, T, O.
  destruct (filter (for_district s d) (table w)) as [|r rows] eqn:F.
  - destruct (read_offline (offline_file w) s d) as [df|e] eqn:Off.
    + destruct (read_offline_records _ _ _ _ Off) as [recs ->].
      destruct recs as [|r recs]; simpl empty; cbv iota.
      * do 2 eexists. split; [reflexivity|]. rewrite A, T.
        split; [lia|]. split; [now left|]. right. right.
        split; [reflexivity|]. split; [reflexivity|]. exists []. split; [reflexivity|].
        left. repeat split. now apply latest_update_none.
      * do 2 eexists. split; [reflexivity|]. unfold to_dict_records.
        cbn [saved api_calls table]. rewrite A, T, C, K.
        split; [lia|]. split; [right; exists (r :: recs); now split|].
        right. right. split; [reflexivity|]. split; [reflexivity|].
        exists (r :: recs). split; [reflexivity|]. right. split; [discriminate|].
        split; reflexivity.
    + do 2 eexists. split; [reflexivity|]. rewrite A, T.
      split; [lia|]. split; [now left|].
      split; [now apply read_offline_raised with s d|reflexivity].
  - do 2 eexists. split; [reflexivity|]. rewrite A, T.
    split; [lia|]. split; [now left|]. left. repeat split. discriminate.
Qed.

End Policy.

Section PolicyInvariants.

Lemma insert_or_replace_other_districts s d r t :
  for_district s d r = true ->
  filter (fun x => negb (for_district s d x)) (insert_or_replace r t)
  = filter (fun x => negb (for_district s d x)) t.
Proof.
  intros Hr. unfold insert_or_replace. rewrite filter_app. simpl.
  rewrite Hr. simpl. rewrite app_nil_r. apply filter_filter_id.
  intros x Hx. apply negb_true_iff in Hx. apply negb_true_iff.
  destruct (same_key r x) eqn:E; [|reflexivity].
  apply same_key_spec in E. destruct E as (E1 & E2 & _).
  unfold for_district in *. rewrite E1, E2, Hx in Hr. discriminate.
Qed.

Lemma saved_table_other_districts s d recs clk : forall n t,
  filter (fun x => negb (for_district s d x)) (saved_table s d recs clk n t)
  = filter (fun x => negb (for_district s d x)) t.
Proof.
  induction recs as [|r recs IH]; intros n t; simpl; [reflexivity|].
  rewrite IH. apply insert_or_replace_other_districts.
  unfold for_district, row_of. simpl. now rewrite !String.eqb_refl.
Qed.

Lemma insert_or_replace_keeps_keys s d y m r t :
  filter (is_key s d y m) t <> [] ->
  filter (is_key s d y m) (insert_or_replace r t) <> [].
Proof.
  intros H. destruct (is_key s d y m r) eqn:E.
  - rewrite lookup_insert_same by assumption. discriminate.
  - now rewrite lookup_insert_other.
Qed.

Lemma saved_table_keeps_keys s' d' y m s d recs clk : forall n t,
  filter (is_key s' d' y m) t <> [] ->
  filter (is_key s' d' y m) (saved_table s d recs clk n t) <> [].
Proof.
  induction recs as [|r recs IH]; intros n t H; simpl; [exact H|].
  apply IH. now apply insert_or_replace_keeps_keys.
Qed.

Lemma saved_table_latest s d recs clk n t :
  recs <> [] -> latest_update s d (saved_table s d recs clk n t) <> None.
Proof.
  intros NE L. destruct recs as [|r recs]; [congruence|].
  destruct (saved_table_has s d (r :: recs) clk n t r (or_introl eq_refl))
    as (r' & i & H & _).
  apply lookup_in_district in H. now apply latest_update_none in L.
Qed.

(** Whatever branch [get_district_data] takes, and also when it raises, a
    table with at most one row per (state, district, year, month) is left
    with at most one row per key. *)
Theorem get_district_data_keeps_unique_keys (w : World) (s d : string) :
  unique_keys (table w) ->
  unique_keys (table (snd (get_district_data s d w))).
Proof.
  intros U. destruct (get_district_data_shape s d w) as (o & w' & E & _ & T & _).
  rewrite E. simpl. destruct T as [->|(recs & _ & ->)]; [exact U|].
  now apply saved_table_unique.
Qed.

(** One run of [get_district_data] executes the [try] block of
    [fetch_from_api] exactly once when [is_cache_valid] answers [False],
    and not at all when it answers [True]. *)
Theorem get_district_data_remote_attempts (w : World) (s d : string) :
  api_calls (snd (get_district_data s d w)) =
  match fst (is_cache_valid s d ttl_default w) with
  | Returned true => api_calls w
  | _ => S (api_calls w)
  end.
Proof.
  rewrite is_cache_valid_run.
  destruct (valid_or_stale s d w) as [(ts & L & V)|St].
  { rewrite (get_district_data_hit s d w ts L V), L.
    apply within_ttl_ltb in V. cbn [fst]. now rewrite V. }
  assert (F : match
                fst match latest_update s d (table w) with
                    | Some ts =>
                        (Returned (clock w (ticks w) - strptime ts <? ttl_default * usec),
                         tick w)
                    | None => (Returned false, w)
                    end
              with
              | Returned true => api_calls w
              | _ => S (api_calls w)
              end = S (api_calls w)).
  { unfold stale_or_absent in St.
    destruct (latest_update s d (table w)) as [ts|]; [|reflexivity].
    apply not_within_ttl_ltb in St. cbn [fst]. now rewrite St. }
  rewrite F.
  destruct (data_or_nothing s d w) as [(recs & R & NE)|N].
  { rewrite (get_district_data_api s d w recs St R NE).
    destruct (after_check_fields w s d) as (_ & _ & _ & _ & A & _).
    simpl. now rewrite A. }
  destruct (get_district_data_nothing s d w St N) as (w1 & E & _ & _ & _ & A & _).
  rewrite E, fallback_run.
  destruct (filter (for_district s d) (table w1)); [|exact A].
  destruct (read_offline (offline_file w1) s d) as [df|e]; [|exact A].
  destruct (empty df); exact A.
Qed.

(** [get_district_data] for one (state, district) leaves the rows of every
    other (state, district) as they were, in the same order. *)
Theorem get_district_data_other_districts (w : World) (s d : string) :
  filter (fun r => negb (for_district s d r))
         (table (snd (get_district_data s d w)))
  = filter (fun r => negb (for_district s d r)) (table w).
Proof.
  destruct (get_district_data_shape s d w) as (o & w' & E & _ & T & _).
  rewrite E. simpl. destruct T as [->|(recs & _ & ->)]; [reflexivity|].
  apply saved_table_other_districts.
Qed.

(** No run of [get_district_data] empties a key: a (state, district, year,
    month) that has a row before the call has one after it. *)
Theorem get_district_data_keeps_keys (w : World) (s d : string)
        (s' d' : string) (y m : Z) :
  filter (is_key s' d' y m) (table w) <> [] ->
  filter (is_key s' d' y m) (table (snd (get_district_data s d w))) <> [].
Proof.
  intros H. destruct (get_district_data_shape s d w) as (o & w' & E & _ & T & _).
  rewrite E. simpl. destruct T as [->|(recs & _ & ->)]; [exact H|].
  now apply saved_table_keeps_keys.
Qed.

(** When [get_district_data] returns, the time stamp is [None] exactly when
    the frame is empty, and an empty frame comes only with the source
    "offline" and an untouched table. *)
Theorem get_district_data_timestamp_none (w : World) (s d : string) :
  match get_district_data s d w with
  | (Returned (df, src, ts), w') =>
      (ts = None <-> empty df = true)
      /\ (empty df = true -> src = "offline"%string /\ table w' = table w)
  | (Raised _, _) => True
  end.
Proof.
  destruct (get_district_data_shape s d w) as (o & w' & E & _ & _ & Sh).
  rewrite E. destruct o as [[[df src] ts]|e]; [|exact I].
  destruct Sh as [(-> & -> & NE & -> & T)
                 |[(-> & recs & t & -> & NE & -> & T)
                  |(-> & F & recs & -> & [(-> & -> & T)|(NE & -> & T)])]].
  - rewrite empty_from_sql_sorted.
    destruct (filter (for_district s d) (table w)) eqn:F; [congruence|].
    assert (L : latest_update s d (table w) <> None)
      by (rewrite latest_update_none, F; discriminate).
    split; [split; [intros H; contradiction|discriminate]|discriminate].
  - assert (Em : empty (FromRecords recs) = false)
      by (destruct recs; [congruence|reflexivity]).
    rewrite Em. split; [split; discriminate|discriminate].
  - simpl. split; [split; reflexivity|]. intros _. now split.
  - assert (Em : empty (FromRecords recs) = false)
      by (destruct recs; [congruence|reflexivity]).
    assert (L : latest_update s d (table w') <> None)
      by (rewrite T; now apply saved_table_latest).
    rewrite Em. split; [split; [intros H; contradiction|discriminate]|discriminate].
Qed.


End PolicyInvariants.

(** ** The queries on the table *)

Section Queries.

Lemma row_geb_spec a b :
  row_geb a b = true <->
  year b < year a \/ (year a = year b /\ month b <= month a).
Proof.
  unfold row_geb.
  rewrite orb_true_iff, andb_true_iff, Z.ltb_lt, Z.eqb_eq, Z.leb_le. tauto.
Qed.

Lemma row_geb_trans a b c :
  row_geb a b = true -> row_geb b c = true -> row_geb a c = true.
Proof. rewrite !row_geb_spec. lia. Qed.

Lemma sorted_head_dominates latest rest :
  Sorted (fun x y => row_geb x y = true) (latest :: rest) ->
  forall r, In r (latest :: rest) -> row_geb latest r = true.
Proof.
  intros S r [<-|Hr].
  - apply row_geb_spec. lia.
  - apply Sorted_StronglySorted in S; [|intros a b c; apply row_geb_trans].
    inversion S as [|? ? _ F]; subst.
    rewrite Forall_forall in F. now apply F.
Qed.

(** [get_from_cache] returns exactly the rows of the district, most recent
    (year, month) first, and leaves the world alone.  When the table has at
    most one row per key, the first row is strictly more recent than every
    other one. *)
Theorem get_from_cache_latest_first (w : World) (s d : string) :
  exists rows,
    get_from_cache s d w = (Returned (FromSql rows), w)
    /\ Permutation rows (filter (for_district s d) (table w))
    /\ Sorted (fun a b => row_geb a b = true) rows
    /\ (forall latest rest, rows = latest :: rest ->
          (forall r, In r rows -> row_geb latest r = true)
          /\ (unique_keys (table w) ->
              forall r, In r rest -> row_geb r latest = false)).
Proof.
  exists (order_by_desc (filter (for_district s d) (table w))).
  split; [reflexivity|]. split; [apply order_by_desc_perm|].
  split; [apply order_by_desc_sorted|].
  intros latest rest E. split.
  - rewrite E. apply sorted_head_dominates. rewrite <- E.
    apply order_by_desc_sorted.
  - intros U r Hr. destruct (row_geb r latest) eqn:G; [exfalso|reflexivity].
    assert (G' : row_geb latest r = true).
    { apply (sorted_head_dominates latest rest); [|now right].
      rewrite <- E. apply order_by_desc_sorted. }
    apply row_geb_spec in G. apply row_geb_spec in G'.
    assert (P : Permutation (latest :: rest) (filter (for_district s d) (table w)))
      by (rewrite <- E; apply order_by_desc_perm).
    assert (D : forall x, In x (latest :: rest) -> for_district s d x = true).
    { intros x Hx. eapply Permutation_in in Hx; [|exact P].
      now apply filter_In in Hx. }
    assert (K : forall x, In x (latest :: rest) ->
                year x = year latest -> month x = month latest ->
                is_key s d (year latest) (month latest) x = true).
    { intros x Hx Ey Em. apply D in Hx. unfold for_district in Hx.
      apply andb_true_iff in Hx. destruct Hx as [H1 H2].
      unfold is_key. now rewrite H1, H2, Ey, Em, !Z.eqb_refl. }
    assert (L : (2 <= List.length
                        (filter (is_key s d (year latest) (month latest))
                                (latest :: rest)))%nat).
    { simpl. rewrite (K latest (or_introl eq_refl) eq_refl eq_refl). simpl.
      apply le_n_S. apply in_split in Hr. destruct Hr as (l1 & l2 & ->).
      rewrite filter_app, length_app. simpl.
      rewrite (K r); [simpl; lia| |lia|lia].
      right. apply in_or_app. right. now left. }
    pose proof (filter_perm (is_key s d (year latest) (month latest)) _ _ P) as P'.
    apply Permutation_length in P'.
    rewrite filter_filter_id in P' by apply is_key_for_district.
    specialize (U s d (year latest) (month latest)). lia.
Qed.

(** [get_cache_timestamp] answers [None] exactly when the district has no
    row; otherwise it answers the [updated_at] of one of the district's
    rows, and none of them has a later one. *)
Theorem get_cache_timestamp_is_latest (w : World) (s d : string) :
  exists o,
    get_cache_timestamp s d w = (Returned o, w)
    /\ (o = None <-> filter (for_district s d) (table w) = [])
    /\ forall ts, o = Some ts ->
         (exists r, In r (table w) /\ for_district s d r = true
                    /\ updated_at r = ts)
         /\ forall r, In r (table w) -> for_district s d r = true ->
                      updated_at r <= ts.
Proof.
  exists (latest_update s d (table w)). split; [reflexivity|].
  split; [apply latest_update_none|].
  intros ts L. apply max_opt_spec in L. destruct L as [I B]. split.
  - apply in_map_iff in I. destruct I as (r & E & I).
    apply filter_In in I. exists r. tauto.
  - intros r Hr F. apply B. apply in_map, filter_In. now split.
Qed.


End Queries.

(** ** The selectors *)

Section Selectors.

Lemma insert_str_perm x l : Permutation (insert_str x l) (x :: l).
Proof.
  induction l as [|y l IH]; simpl; [reflexivity|].
  destruct (String.leb x y); [reflexivity|].
  rewrite IH. apply perm_swap.
Qed.

Lemma sort_str_perm l : Permutation (sort_str l) l.
Proof.
  induction l as [|x l IH]; simpl; [reflexivity|].
  rewrite insert_str_perm. now constructor.
Qed.

Lemma leb_false_flip x y : String.leb x y = false -> String.leb y x = true.
Proof. intros H. destruct (String.leb_total x y); congruence. Qed.

Lemma insert_str_sorted x l :
  Sorted (fun a b => String.leb a b = true) l ->
  Sorted (fun a b => String.leb a b = true) (insert_str x l).
Proof.
  induction 1 as [|a l S IH H]; simpl.
  - repeat constructor.
  - destruct (String.leb x a) eqn:E.
    + constructor; [now constructor|now constructor].
    + constructor; [exact IH|].
      destruct l as [|b l]; simpl.
      * constructor. now apply leb_false_flip.
      * destruct (String.leb x b); constructor;
          [now apply leb_false_flip|now inversion H].
Qed.

Lemma sort_str_sorted l :
  Sorted (fun a b => String.leb a b = true) (sort_str l).
Proof.
  induction l as [|x l IH]; simpl; [constructor|].
  now apply insert_str_sorted.
Qed.

(** What [SELECT DISTINCT ... ORDER BY] and [sorted(unique())] have in
    common, for a column [f] of the rows [l]. *)
Lemma select_distinct_spec {A} (f : A -> string) (l : list A) :
  NoDup (sort_str (nodup string_dec (map f l)))
  /\ Sorted (fun a b => String.leb a b = true)
            (sort_str (nodup string_dec (map f l)))
  /\ forall x, In x (sort_str (nodup string_dec (map f l)))
               <-> exists a, In a l /\ f a = x.
Proof.
  split; [|split].
  - eapply Permutation_NoDup; [symmetry; apply sort_str_perm|].
    apply NoDup_nodup.
  - apply sort_str_sorted.
  - intros x. split.
    + intros H. eapply Permutation_in in H; [|apply sort_str_perm].
      apply nodup_In, in_map_iff in H. destruct H as (a & E & I).
      exists a. tauto.
    + intros (a & I & E).
      eapply Permutation_in; [symmetry; apply sort_str_perm|].
      apply nodup_In, in_map_iff. exists a. tauto.
Qed.

Lemma in_state_filter s (t : list Row) x :
  (exists r, In r (filter (fun r => String.eqb (state r) s) t) /\ district r = x)
  <-> exists r, In r t /\ state r = s /\ district r = x.
Proof.
  split.
  - intros (r & H1 & H2). apply filter_In in H1. destruct H1 as [H1 H3].
    apply String.eqb_eq in H3. exists r. tauto.
  - intros (r & H1 & H2 & H3). exists r. split; [|exact H3].
    apply filter_In. split; [exact H1|]. now apply String.eqb_eq.
Qed.

(** [get_all_states_from_cache] lists every state that has a row, each
    once, in ascending order, and nothing else; it does not touch the
    world. *)
Theorem get_all_states_from_cache_spec (w : World) :
  exists states,
    get_all_states_from_cache w = (Returned states, w)
    /\ NoDup states
    /\ Sorted (fun a b => String.leb a b = true) states
    /\ forall x, In x states <-> exists r, In r (table w) /\ state r = x.
Proof.
  exists (sort_str (nodup string_dec (map state (table w)))).
  split; [reflexivity|]. apply select_distinct_spec.
Qed.

(** [get_districts_from_cache] lists every district of the state that has
    a row, each once, in ascending order, and nothing else. *)
Theorem get_districts_from_cache_spec (w : World) (s : string) :
  exists districts,
    get_districts_from_cache s w = (Returned districts, w)
    /\ NoDup districts
    /\ Sorted (fun a b => String.leb a b = true) districts
    /\ forall x, In x districts <->
                 exists r, In r (table w) /\ state r = s /\ district r = x.
Proof.
  eexists. split; [reflexivity|].
  destruct (select_distinct_spec district
              (filter (fun r => String.eqb (state r) s) (table w)))
    as (N & S & I).
  split; [exact N|]. split; [exact S|].
  intros x. rewrite I. apply in_state_filter.
Qed.



Lemma default_states_nodup : NoDup default_states.
Proof.
  unfold default_states.
  repeat (constructor; [simpl; intuition discriminate|]). constructor.
Qed.

(** A state with a row is among the options of the state selector. *)
Lemma available_states_in w x :
  (exists r, In r (table w) /\ state r = x) ->
  exists states, available_states w = (Returned states, w) /\ In x states.
Proof.
  intros H. apply (proj2 (proj2 (select_distinct_spec state (table w))) x) in H.
  unfold available_states, get_all_states_from_cache.
  rewrite !bind_run. unfold get_table. cbv beta iota. unfold ret at 1.
  cbv beta iota.
  destruct (sort_str (nodup string_dec (map state (table w)))) as [|y l];
    [destruct H|].
  eexists. split; [reflexivity|exact H].
Qed.

(** A district with a row is among the options of the district selector. *)
Lemma cached_districts_in w s x :
  (exists r, In r (table w) /\ state r = s /\ district r = x) ->
  exists districts,
    cached_districts s w = (Returned districts, w) /\ In x districts.
Proof.
  intros H. apply in_state_filter in H.
  apply (proj2 (proj2 (select_distinct_spec district
                         (filter (fun r => String.eqb (state r) s) (table w)))) x)
    in H.
  unfold cached_districts, get_districts_from_cache.
  rewrite !bind_run. unfold get_table. cbv beta iota. unfold ret at 1.
  cbv beta iota.
  destruct (sort_str (nodup string_dec
              (map district (filter (fun r => String.eqb (state r) s) (table w)))))
    as [|y l]; [destruct H|].
  eexists. split; [reflexivity|exact H].
Qed.

Lemma returned_data_is_stored s d w :
  match get_district_data s d w with
  | (Returned (df, src, ts), w') =>
      empty df = false -> filter (for_district s d) (table w') <> []
  | (Raised _, _) => True
  end.
Proof.
  destruct (get_district_data_shape s d w) as (o & w' & E & _ & _ & Sh).
  rewrite E. destruct o as [[[df src] ts]|e]; [|exact I].
  intros Em.
  destruct Sh as [(-> & -> & NE & -> & T)
                 |[(-> & recs & t & -> & NE & -> & T)
                  |(-> & F & recs & -> & [(-> & -> & T)|(NE & -> & T)])]].
  - now rewrite T.
  - rewrite T, <- latest_update_none. now apply saved_table_latest.
  - discriminate.
  - rewrite T, <- latest_update_none. now apply saved_table_latest.
Qed.

(** A frame that [get_district_data] returns non-empty is in the table
    after the call: the district then has rows, and the next run of the
    script offers the state and the district in its two selectors. *)
Theorem returned_district_is_offered (w : World) (s d : string) :
  match get_district_data s d w with
  | (Returned (df, src, ts), w') =>
      empty df = false ->
      filter (for_district s d) (table w') <> []
      /\ (exists states,
            available_states w' = (Returned states, w') /\ In s states)
      /\ (exists districts,
            cached_districts s w' = (Returned districts, w') /\ In d districts)
  | (Raised _, _) => True
  end.
Proof.
  pose proof (returned_data_is_stored s d w) as St.
  destruct (get_district_data s d w) as [[[[df src] ts]|e] w']; [|exact I].
  intros Em. specialize (St Em). split; [exact St|].
  assert (R : exists r, In r (table w') /\ state r = s /\ district r = d).
  { destruct (filter (for_district s d) (table w')) as [|r rows] eqn:F;
      [congruence|].
    assert (Hr : In r (filter (for_district s d) (table w')))
      by (rewrite F; now left).
    apply filter_In in Hr. destruct Hr as [Hr K]. unfold for_district in K.
    apply andb_true_iff in K. rewrite !String.eqb_eq in K. exists r. tauto. }
  destruct R as (r & Hr & Hs & Hd). split.
  - apply available_states_in. exists r. tauto.
  - apply cached_districts_in. exists r. tauto.
Qed.

End Selectors.

(** ** Month names and the year-over-year block *)

Section Trends.

(** [get_month_name] answers the empty string exactly for the numbers
    outside 1..12, and gives different names to different months. *)
Theorem get_month_name_spec :
  (forall m, get_month_name m = ""%string <-> ~ (1 <= m <= 12))
  /\ (forall a b, 1 <= a <= 12 -> get_month_name a = get_month_name b -> a = b).
Proof.
  assert (Out : forall m, ~ (1 <= m <= 12) -> get_month_name m = ""%string).
  { intros [|p|p] H; try reflexivity.
    do 4 (try destruct p as [p|p|]); try reflexivity; exfalso; lia. }
  assert (Inn : forall m, 1 <= m <= 12 -> get_month_name m <> ""%string).
  { intros m H.
    assert (C : m = 1 \/ m = 2 \/ m = 3 \/ m = 4 \/ m = 5 \/ m = 6 \/ m = 7
                \/ m = 8 \/ m = 9 \/ m = 10 \/ m = 11 \/ m = 12) by lia.
    repeat (destruct C as [->|C]; [discriminate|]). subst. discriminate. }
  split.
  - intros m. split.
    + intros E H. now apply (Inn m).
    + apply Out.
  - intros a b Ha E.
    assert (Hb : 1 <= b <= 12).
    { destruct (Z_le_dec 1 b) as [L|L]; [destruct (Z_le_dec b 12) as [U|U]|];
        try lia; exfalso; apply (Inn a Ha); rewrite E; apply Out; lia. }
    assert (Ca : a = 1 \/ a = 2 \/ a = 3 \/ a = 4 \/ a = 5 \/ a = 6 \/ a = 7
                 \/ a = 8 \/ a = 9 \/ a = 10 \/ a = 11 \/ a = 12) by lia.
    assert (Cb : b = 1 \/ b = 2 \/ b = 3 \/ b = 4 \/ b = 5 \/ b = 6 \/ b = 7
                 \/ b = 8 \/ b = 9 \/ b = 10 \/ b = 11 \/ b = 12) by lia.
    repeat (destruct Ca as [->|Ca]);
      repeat (destruct Cb as [->|Cb]); subst;
      try reflexivity; discriminate E.
Qed.

Lemma insert_year_in y x l : In x (insert_year y l) <-> x = y \/ In x l.
Proof.
  induction l as [|a l IH]; simpl; [intuition|].
  destruct (a <=? y); simpl; [intuition|]. rewrite IH. intuition.
Qed.

Lemma insert_year_sorted y l :
  ~ In y l ->
  Sorted (fun a b => b < a) l -> Sorted (fun a b => b < a) (insert_year y l).
Proof.
  intros N S. induction S as [|a l S IH H]; simpl.
  - repeat constructor.
  - assert (Na : a <> y) by (intros ->; apply N; now left).
    destruct (a <=? y) eqn:E.
    + apply Z.leb_le in E. constructor; [now constructor|]. constructor. lia.
    + apply Z.leb_gt in E. constructor.
      * apply IH. intros I. apply N. now right.
      * destruct l as [|b l]; simpl; [constructor; lia|].
        destruct (b <=? y); constructor; [lia|now inversion H].
Qed.

Lemma insert_year_perm y l : Permutation (insert_year y l) (y :: l).
Proof.
  induction l as [|x l IH]; simpl; [reflexivity|].
  destruct (x <=? y); [reflexivity|]. rewrite IH. apply perm_swap.
Qed.

Lemma sort_years_perm l : Permutation (fold_right insert_year [] l) l.
Proof.
  induction l as [|x l IH]; simpl; [reflexivity|].
  rewrite insert_year_perm. now constructor.
Qed.

Lemma sorted_years (l : list Z) :
  NoDup l ->
  Sorted (fun a b => b < a) (fold_right insert_year [] l)
  /\ forall x, In x (fold_right insert_year [] l) <-> In x l.
Proof.
  induction 1 as [|y l N _ IH]; simpl.
  - split; [constructor|tauto].
  - destruct IH as [S I]. split.
    + apply insert_year_sorted; [now rewrite I|exact S].
    + intros x. rewrite insert_year_in, I. intuition.
Qed.

Lemma all_years_in df y :
  In y (all_years df) <-> exists r, In r df /\ year r = y.
Proof.
  unfold all_years.
  rewrite (proj2 (sorted_years (nodup Z.eq_dec (map year df)) (NoDup_nodup _ _))).
  rewrite nodup_In, in_map_iff.
  split; intros (r & H1 & H2); exists r; tauto.
Qed.

(** [all_years] holds the years of the frame, each once, from the latest
    down: the year taken as latest is later than the one taken as
    previous. *)
Theorem all_years_descending (df : list Row) :
  Sorted (fun a b => b < a) (all_years df)
  /\ (forall y, In y (all_years df) <-> exists r, In r df /\ year r = y)
  /\ (forall latest_year prev_year rest,
        all_years df = latest_year :: prev_year :: rest ->
        prev_year < latest_year).
Proof.
  split; [|split].
  - unfold all_years. apply sorted_years, NoDup_nodup.
  - apply all_years_in.
  - intros l p rest E.
    assert (S : Sorted (fun a b => b < a) (all_years df))
      by (unfold all_years; apply sorted_years, NoDup_nodup).
    rewrite E in S. inversion S as [|? ? _ H]; subst. now inversion H.
Qed.

Lemma year_total_app a b y :
  year_total (a ++ b) y = year_total a y + year_total b y.
Proof.
  unfold year_total. rewrite filter_app, map_app.
  induction (map snd (filter (fun e => fst e =? y) a)) as [|x l IH]; simpl; lia.
Qed.

Lemma year_total_entry df m y' y :
  year_total (yoy_entry df m y') y
  = if y' =? y then first_person_days df y m else 0.
Proof.
  unfold yoy_entry, first_person_days, year_total.
  destruct (y' =? y) eqn:E.
  - apply Z.eqb_eq in E. subst y'.
    destruct (find _ df); simpl; [rewrite Z.eqb_refl; simpl; lia|reflexivity].
  - destruct (find _ df); simpl; [rewrite E|]; reflexivity.
Qed.

Lemma year_total_month df m y years :
  NoDup years ->
  year_total (flat_map (yoy_entry df m) years) y
  = if in_dec Z.eq_dec y years then first_person_days df y m else 0.
Proof.
  induction 1 as [|y' years N _ IH]; simpl; [reflexivity|].
  rewrite year_total_app, year_total_entry, IH.
  destruct (Z.eq_dec y' y) as [->|Ne].
  - rewrite Z.eqb_refl. destruct (in_dec Z.eq_dec y years); [contradiction|lia].
  - rewrite (proj2 (Z.eqb_neq y' y) Ne).
    destruct (in_dec Z.eq_dec y years); reflexivity.
Qed.

Lemma first_person_days_absent df y m :
  (forall r, In r df -> year r <> y) -> first_person_days df y m = 0.
Proof.
  intros H. unfold first_person_days.
  destruct (find _ df) as [r|] eqn:F; [|reflexivity].
  apply find_some in F. destruct F as [I E].
  apply andb_true_iff in E. destruct E as [E _]. apply Z.eqb_eq in E.
  exfalso. now apply (H r).
Qed.

End Trends.

(** ** Suggestions and comparison *)

Section Suggested.

Variable lower : string -> string.

Lemma str_mem_spec x l : str_mem x l = true <-> In x l.
Proof.
  unfold str_mem. rewrite existsb_exists. split.
  - intros (y & I & E). apply String.eqb_eq in E. now subst.
  - intros I. exists x. split; [exact I|apply String.eqb_refl].
Qed.

Lemma suggested_by_mapping_spec loc districts mappings : forall acc,
  NoDup acc -> (forall x, In x acc -> In x districts) ->
  NoDup (suggested_by_mapping loc districts mappings acc)
  /\ (forall x, In x (suggested_by_mapping loc districts mappings acc) ->
                In x districts)
  /\ (forall x, In x acc ->
                In x (suggested_by_mapping loc districts mappings acc)).
Proof.
  induction mappings as [|[key district] rest IH]; intros acc N I; simpl.
  - auto.
  - destruct (str_in key loc && str_mem district districts
              && negb (str_mem district acc)) eqn:E.
    + apply andb_true_iff in E. destruct E as [E E3].
      apply andb_true_iff in E. destruct E as [_ E2].
      apply str_mem_spec in E2. apply negb_true_iff in E3.
      assert (NI : ~ In district acc).
      { intros H. apply str_mem_spec in H. congruence. }
      destruct (IH (acc ++ [district])) as (H1 & H2 & H3).
      * apply NoDup_app; [exact N|repeat constructor; simpl; tauto|].
        intros x Hx [<-|[]]. contradiction.
      * intros x Hx. apply in_app_or in Hx. destruct Hx as [Hx|[<-|[]]]; auto.
      * split; [exact H1|]. split; [exact H2|].
        intros x Hx. apply H3, in_or_app. now left.
    + now apply IH.
Qed.

(** The districts suggested for a location are options of the district
    selector, none is suggested twice, and every option whose name
    contains the location or is contained in it (both in lower case) is
    among them. *)
Theorem suggested_districts_are_options (user_location : string)
        (districts : list string) :
  NoDup districts ->
  NoDup (suggested_districts lower user_location districts)
  /\ (forall x, In x (suggested_districts lower user_location districts) ->
                In x districts)
  /\ (forall x, In x districts ->
                str_in (lower user_location) (lower x)
                || str_in (lower x) (lower user_location) = true ->
                In x (suggested_districts lower user_location districts)).
Proof.
  intros N. unfold suggested_districts.
  destruct (suggested_by_mapping_spec (lower user_location) districts
              common_mappings
              (suggested_by_name lower (lower user_location) districts))
    as (H1 & H2 & H3).
  - unfold suggested_by_name. now apply NoDup_filter.
  - intros x Hx. unfold suggested_by_name in Hx. now apply filter_In in Hx.
  - split; [exact H1|]. split; [exact H2|].
    intros x Hx E. apply H3. unfold suggested_by_name.
    apply filter_In. now split.
Qed.

End Suggested.

Section Comparison.

(** The comparison of [n] districts runs the [try] block of
    [fetch_from_api] at most [n] times, adds at most one entry per
    district, only for selected districts, after the entries it started
    with, and keeps a table with at most one row per key so. *)
Theorem comparison_loop_bounds (s : string) (districts : list string) :
  forall (acc : list (string * (Z * Z * Q * Q))) (w : World),
    match comparison_loop s districts acc w with
    | (Returned l, w') =>
        (exists l',
            l = acc ++ l'
            /\ (List.length l' <= List.length districts)%nat
            /\ forall x, In x (map fst l') -> In x districts)
        /\ (api_calls w' <= api_calls w + List.length districts)%nat
        /\ (unique_keys (table w) -> unique_keys (table w'))
    | (Raised e, w') =>
        (api_calls w' <= api_calls w + List.length districts)%nat
    end.
Proof.
  induction districts as [|d rest IH]; intros acc w; simpl.
  - split; [|split; [lia|auto]].
    exists []. rewrite app_nil_r. split; [reflexivity|]. split; [simpl; lia|].
    intros x [].
  - rewrite bind_run.
    destruct (get_district_data_shape s d w) as (o & w1 & E & A & T & _).
    rewrite E. destruct o as [res|e]; [|simpl; lia].
    assert (U1 : unique_keys (table w) -> unique_keys (table w1)).
    { intros U. destruct T as [->|(recs & _ & ->)]; [exact U|].
      now apply saved_table_unique. }
    set (acc' := match iloc0 (fst (fst res)) with
                 | Some latest_record => acc ++ [(d, latest_record)]
                 | None => acc
                 end).
    specialize (IH acc' w1).
    destruct (comparison_loop s rest acc' w1) as [[l|e] w'].
    + destruct IH as ((l' & -> & Len & In') & A' & U').
      split; [|split; [lia|auto]].
      unfold acc'. destruct (iloc0 (fst (fst res))) as [latest_record|].
      * exists ((d, latest_record) :: l'). rewrite <- app_assoc.
        split; [reflexivity|]. split; [simpl; lia|].
        intros x [<-|Hx]; [now left|right; now apply In'].
      * exists l'. split; [reflexivity|]. split; [simpl; lia|].
        intros x Hx. right. now apply In'.
    + lia.
Qed.

End Comparison.

(** ** The further properties at the sample worlds *)

Section MoreWitnesses.

Import Samples.
Open Scope string_scope.

Lemma stored_may_unique : unique_keys [stored_may].
Proof.
  intros s d y m. simpl. destruct (is_key s d y m stored_may); simpl; lia.
Qed.

Lemma get_district_data_keeps_unique_keys_witness :
  unique_keys (table (after_hours 25 answering_remote))
  /\ unique_keys
       (table (snd (get_district_data "Uttar Pradesh" "Agra"
                      (after_hours 25 answering_remote)))).
Proof.
  split; [exact stored_may_unique|].
  exact (get_district_data_keeps_unique_keys (after_hours 25 answering_remote)
           "Uttar Pradesh" "Agra" stored_may_unique).
Defined.

Lemma get_district_data_keeps_keys_witness :
  filter (is_key "Uttar Pradesh" "Agra" 2024 5)
         (table (after_hours 25 answering_remote)) <> []
  /\ filter (is_key "Uttar Pradesh" "Agra" 2024 5)
            (table (snd (get_district_data "Uttar Pradesh" "Agra"
                           (after_hours 25 answering_remote)))) <> [].
Proof.
  assert (H : filter (is_key "Uttar Pradesh" "Agra" 2024 5)
                     (table (after_hours 25 answering_remote)) <> [])
    by discriminate.
  split; [exact H|].
  exact (get_district_data_keeps_keys (after_hours 25 answering_remote)
           "Uttar Pradesh" "Agra" "Uttar Pradesh" "Agra" 2024 5 H).
Defined.


Lemma returned_district_is_offered_witness :
  exists df src ts w',
    get_district_data "Uttar Pradesh" "Agra" first_run_offline
    = (Returned (df, src, ts), w')
    /\ empty df = false
    /\ exists districts,
         cached_districts "Uttar Pradesh" w' = (Returned districts, w')
         /\ In "Agra" districts.
Proof.
  pose proof (returned_district_is_offered first_run_offline
                "Uttar Pradesh" "Agra") as H.
  destruct (get_district_data "Uttar Pradesh" "Agra" first_run_offline)
    as [[[[df src] ts]|e] w'] eqn:E; [|discriminate E].
  assert (Em : empty df = false).
  { assert (F : fst (get_district_data "Uttar Pradesh" "Agra" first_run_offline)
                = Returned (df, src, ts)) by now rewrite E.
    vm_compute in F. now injection F as <- _ _. }
  exists df, src, ts, w'. split; [reflexivity|]. split; [exact Em|].
  exact (proj2 (proj2 (H Em))).
Defined.

Lemma suggested_districts_are_options_witness :
  NoDup ["Agra"; "Lucknow"]
  /\ forall x,
       In x (suggested_districts (fun s => s) "agra fort" ["Agra"; "Lucknow"]) ->
       In x ["Agra"; "Lucknow"].
Proof.
  assert (N : NoDup ["Agra"; "Lucknow"]).
  { repeat (constructor; [simpl; intuition discriminate|]). constructor. }
  split; [exact N|].
  exact (proj1 (proj2 (suggested_districts_are_options (fun s => s)
                         "agra fort" ["Agra"; "Lucknow"] N))).
Defined.

Lemma fetch_from_api_demo_witness :
  remote first_run = demo_remote
  /\ fst (fetch_from_api "Uttar Pradesh" "Agra" first_run) = Returned None.
Proof.
  split; [reflexivity|].
  exact (proj1 (fetch_from_api_demo first_run "Uttar Pradesh" "Agra" eq_refl)).
Defined.

End MoreWitnesses.

(** ** The functions on dicts *)

Section RawFacts.





(** A record whose households do not fit makes the turn raise after the
    clock has been read, the table as it was. *)
Lemma execute_insert_overflow s d record w :
  Raw.fits_int64 (src_year record) = true ->
  Raw.fits_int64 (src_month record) = true ->
  Raw.fits_int64 (src_households record) = false ->
  Raw.execute_insert s d (Raw.of_src record) w
  = (Raised Raw.OverflowError, tick w).
Proof.
  intros By Bm Bh.
  unfold Raw.execute_insert, Raw.of_src, Raw.getitem, Raw.bind_int.
  cbn [Raw.py_year Raw.py_month Raw.py_households Raw.py_person_days
       Raw.py_expenditure Raw.py_avg_wage].
  unfold bind, ret, raise, datetime_now, tick.
  rewrite By, Bm, Bh. reflexivity.
Qed.




End RawFacts.

(** ** The writes and the remote branch on dicts *)

Section DictLevel.

Import Samples RawSamples.


























End DictLevel.

(** ** The selectors and the yearly totals, branch by branch *)

Section Branches.

Import Samples.

(** X14.  The options of the state selector: with an empty table, the six
    default states in the order of the script; otherwise the states that
    have a row, each once, in ascending order.  Never an empty list, never
    a repetition, and the world is left as it was. *)
Theorem available_states_nonempty (w : World) :
  exists states,
    available_states w = (Returned states, w)
    /\ states <> [] /\ NoDup states
    /\ (table w = [] ->
        states = ["Uttar Pradesh"; "Maharashtra"; "Karnataka"; "Tamil Nadu";
                  "Bihar"; "Rajasthan"]%string)
    /\ (table w <> [] ->
        Sorted (fun a b => String.leb a b = true) states
        /\ forall x, In x states <-> exists r, In r (table w) /\ state r = x).
Proof.
  destruct (select_distinct_spec state (table w)) as (N & So & I).
  unfold available_states, get_all_states_from_cache.
  rewrite !bind_run. unfold get_table. cbv beta iota. unfold ret at 1.
  cbv beta iota.
  destruct (sort_str (nodup string_dec (map state (table w)))) as [|x l] eqn:E.
  - exists default_states. split; [reflexivity|].
    split; [discriminate|]. split; [apply default_states_nodup|].
    split; [reflexivity|].
    intros NE. exfalso. destruct (table w) as [|r t]; [congruence|].
    apply (proj2 (I (state r))). exists r. split; [now left|reflexivity].
  - exists (x :: l). split; [reflexivity|]. split; [discriminate|].
    split; [exact N|]. split.
    + intros T. rewrite T in E. discriminate.
    + intros _. split; [exact So|exact I].
Qed.


(** X19.  When the person-days of the first row of each month from May to
    October of a year lie strictly between -2^60 and 2^60, the total that
    the block computes for that year is the sum of those six figures (a
    month without a row counting for nothing), the other months of the
    year never enter, and the total fits a 64-bit integer. *)
Theorem year_total_may_to_october (df : list Row) (y : Z) :
  (forall m, In m [5; 6; 7; 8; 9; 10] ->
             - 2 ^ 60 < first_person_days df y m < 2 ^ 60) ->
  year_total (yoy_data df) y
  = first_person_days df y 5 + first_person_days df y 6
    + first_person_days df y 7 + first_person_days df y 8
    + first_person_days df y 9 + first_person_days df y 10
  /\ - 2 ^ 63 <= year_total (yoy_data df) y < 2 ^ 63.
Proof.
  intros B.
  assert (N : NoDup (all_years df)).
  { unfold all_years.
    apply (Permutation_NoDup (l := nodup Z.eq_dec (map year df)));
      [symmetry; apply sort_years_perm|apply NoDup_nodup]. }
  assert (M : forall m,
             year_total (flat_map (yoy_entry df m) (all_years df)) y
             = first_person_days df y m).
  { intros m. rewrite year_total_month by exact N.
    destruct (in_dec Z.eq_dec y (all_years df)) as [I|I]; [reflexivity|].
    symmetry. apply first_person_days_absent. intros r Hr E. apply I.
    apply all_years_in. exists r. tauto. }
  assert (E : year_total (yoy_data df) y
              = first_person_days df y 5 + first_person_days df y 6
                + first_person_days df y 7 + first_person_days df y 8
                + first_person_days df y 9 + first_person_days df y 10).
  { unfold yoy_data. simpl flat_map.
    rewrite !year_total_app, !M. unfold year_total at 1. simpl. lia. }
  split; [exact E|]. rewrite E.
  pose proof (B 5 ltac:(simpl; tauto)). pose proof (B 6 ltac:(simpl; tauto)).
  pose proof (B 7 ltac:(simpl; tauto)). pose proof (B 8 ltac:(simpl; tauto)).
  pose proof (B 9 ltac:(simpl; tauto)). pose proof (B 10 ltac:(simpl; tauto)).
  change (2 ^ 63) with (8 * 2 ^ 60). lia.
Qed.

Lemma year_total_may_to_october_witness :
  (forall m, In m [5; 6; 7; 8; 9; 10] ->
             - 2 ^ 60 < first_person_days two_years 2024 m < 2 ^ 60)
  /\ year_total (yoy_data two_years) 2024
     = first_person_days two_years 2024 5
       + first_person_days two_years 2024 6
       + first_person_days two_years 2024 7
       + first_person_days two_years 2024 8
       + first_person_days two_years 2024 9
       + first_person_days two_years 2024 10.
Proof.
  assert (B : forall m, In m [5; 6; 7; 8; 9; 10] ->
                - 2 ^ 60 < first_person_days two_years 2024 m < 2 ^ 60).
  { intros m H. simpl in H.
    destruct H as [<-|[<-|[<-|[<-|[<-|[<-|[]]]]]]]; vm_compute;
      split; reflexivity. }
  split; [exact B|].
  exact (proj1 (year_total_may_to_october two_years 2024 B)).
Defined.

(** X20.  For totals strictly between -2^62 and 2^62: with a previous-year
    total that is zero or negative the block writes no sentence; with a
    positive one it writes one sentence, "increase" exactly when the latest
    total is the larger, "decrease" otherwise, and equal totals are written
    as a decrease of zero. *)
Theorem yoy_sentence_direction (latest_total prev_total : Z) :
  - 2 ^ 62 < latest_total < 2 ^ 62 ->
  - 2 ^ 62 < prev_total < 2 ^ 62 ->
  (prev_total <= 0 -> yoy_sentence latest_total prev_total = None)
  /\ (0 < prev_total ->
      exists sentence,
        yoy_sentence latest_total prev_total = Some sentence
        /\ is_increase sentence = Z.ltb prev_total latest_total
        /\ (latest_total = prev_total ->
            exists pct, sentence = Decrease pct /\ (pct == 0)%Q)).
Proof.
  intros _ _. unfold yoy_sentence, yoy_change. split.
  - intros H. destruct (prev_total >? 0) eqn:G; [|reflexivity].
    apply Z.gtb_lt in G. lia.
  - intros H. rewrite (proj2 (Z.gtb_lt prev_total 0) H).
    eexists. split; [reflexivity|].
    destruct prev_total as [|p|p]; try lia.
    unfold Qpositive. split.
    + destruct (Z.ltb (Z.pos p) latest_total) eqn:L.
      * apply Z.ltb_lt in L.
        replace (0 ?= _)%Q with Lt; [reflexivity|].
        symmetry. apply (proj1 (Qlt_alt _ _)). unfold Qlt. simpl. lia.
      * apply Z.ltb_ge in L.
        destruct (0 ?= _)%Q eqn:C; try reflexivity.
        apply (proj2 (Qlt_alt _ _)) in C. unfold Qlt in C. simpl in C. lia.
    + intros ->. rewrite Z.sub_diag. eexists. split; reflexivity.
Qed.

Lemma yoy_sentence_direction_witness :
  - 2 ^ 62 < 150 < 2 ^ 62 /\ - 2 ^ 62 < 100 < 2 ^ 62 /\ 0 < 100
  /\ exists sentence,
       yoy_sentence 150 100 = Some sentence /\ is_increase sentence = true.
Proof.
  assert (A : - 2 ^ 62 < 150 < 2 ^ 62) by (split; reflexivity).
  assert (B : - 2 ^ 62 < 100 < 2 ^ 62) by (split; reflexivity).
  assert (H : 0 < 100) by reflexivity.
  split; [exact A|]. split; [exact B|]. split; [exact H|].
  destruct (proj2 (yoy_sentence_direction 150 100 A B) H) as (c & E & D & _).
  exists c. split; [exact E|exact D].
Defined.

End Branches.
